(** * PyCNC [rpgpio]: register-level GPIO control and the DMA pulse engine

    A shallow embedding of [rpgpio.py] (classes [GPIO] and [DMAGPIO]) and
    the properties of its descriptor-chain builder, its error paths and its
    hardware programming sequences.

    Python integers are unbounded, so every integer is a [Z] and the bit
    operators [&], [|], [~], [<<] are [Z.land], [Z.lor], [Z.lnot],
    [Z.shiftl]. The module [rpgpio_private] (register offsets, flag macros,
    [PhysicalMemory], [CMAPhysicalMemory]) is imported by the source but is
    not part of it: its constants are the fields of the class
    [rpgpio_private] below, and its two memory classes are modelled as
    documented at their definitions. *)

From Stdlib Require Import ZArith List Lia Bool String.
From stdpp Require Import base gmap.
Import ListNotations.
Local Open Scope Z_scope.

(** ** Constants and macros of [rpgpio_private]

    Every name [rpgpio.py] takes from [from rpgpio_private import *].
    Function-like macros are fields of type [Z -> Z]. *)
Class rpgpio_private := {
  PERI_BASE : Z;
  GPIO_REGISTER_BASE : Z;
  GPIO_FSEL_OFFSET : Z;
  GPIO_SET_OFFSET : Z;
  GPIO_CLEAR_OFFSET : Z;
  GPIO_INPUT_OFFSET : Z;
  GPIO_PULLUPDN_OFFSET : Z;
  GPIO_PULLUPDNCLK_OFFSET : Z;
  PHYSICAL_GPIO_BUS : Z;
  PHYSICAL_PWM_BUS : Z;
  DMA_BASE : Z;
  DMA_TI_NO_WIDE_BURSTS : Z;
  DMA_TI_WAIT_RESP : Z;
  DMA_TI_TDMODE : Z;
  DMA_TI_DEST_DREQ : Z;
  DMA_SRC_IGNORE : Z;
  DMA_TI_PER_MAP_PWM : Z;
  DMA_TI_PER_MAP : Z -> Z;
  DMA_TI_TXFR_LEN_YLENGTH : Z -> Z;
  DMA_TI_TXFR_LEN_XLENGTH : Z -> Z;
  DMA_TI_STRIDE_D_STRIDE : Z -> Z;
  DMA_TI_STRIDE_S_STRIDE : Z -> Z;
  DMA_CS_PRIORITY : Z -> Z;
  DMA_CS_PANIC_PRIORITY : Z -> Z;
  DMA_CS_DISDEBUG : Z;
  DMA_CS_ACTIVE : Z;
  DMA_CS_END : Z;
  DMA_CS_ABORT : Z;
  DMA_CS_RESET : Z;
  PWM_BASE : Z;
  PWM_CTL : Z;
  PWM_DMAC : Z;
  PWM_RNG1 : Z;
  PWM_CTL_PWEN1 : Z;
  PWM_CTL_CLRF : Z;
  PWM_CTL_USEF1 : Z;
  PWM_DMAC_ENAB : Z;
  PWM_DMAC_PANIC : Z -> Z;
  PWM_DMAC_DREQ : Z -> Z;
  CM_BASE : Z;
  CM_CNTL : Z;
  CM_DIV : Z;
  CM_PASSWORD : Z;
  CM_SRC_PLLD : Z;
  CM_ENABLE : Z;
  CM_DIV_VALUE : Z -> Z
}.

(** One platform: the register map of the BCM283x peripherals manual.
    No property below depends on these values; they give the examples a
    concrete machine to run on. *)
Definition bcm283x : rpgpio_private := {|
  PERI_BASE := 0x3F000000;
  GPIO_REGISTER_BASE := 0x200000;
  GPIO_FSEL_OFFSET := 0x0;
  GPIO_SET_OFFSET := 0x1C;
  GPIO_CLEAR_OFFSET := 0x28;
  GPIO_INPUT_OFFSET := 0x34;
  GPIO_PULLUPDN_OFFSET := 0x94;
  GPIO_PULLUPDNCLK_OFFSET := 0x98;
  PHYSICAL_GPIO_BUS := 0x7E000000 + 0x200000;
  PHYSICAL_PWM_BUS := 0x7E000000 + 0x20C000;
  DMA_BASE := 0x007000;
  DMA_TI_NO_WIDE_BURSTS := Z.shiftl 1 26;
  DMA_TI_WAIT_RESP := Z.shiftl 1 3;
  DMA_TI_TDMODE := Z.shiftl 1 1;
  DMA_TI_DEST_DREQ := Z.shiftl 1 6;
  DMA_SRC_IGNORE := Z.shiftl 1 11;
  DMA_TI_PER_MAP_PWM := 5;
  DMA_TI_PER_MAP := fun x => Z.shiftl x 16;
  DMA_TI_TXFR_LEN_YLENGTH := fun y => Z.shiftl (Z.land y 0x3fff) 16;
  DMA_TI_TXFR_LEN_XLENGTH := fun x => Z.land x 0xffff;
  DMA_TI_STRIDE_D_STRIDE := fun x => Z.shiftl (Z.land x 0xffff) 16;
  DMA_TI_STRIDE_S_STRIDE := fun x => Z.land x 0xffff;
  DMA_CS_PRIORITY := fun x => Z.shiftl (Z.land x 0xf) 16;
  DMA_CS_PANIC_PRIORITY := fun x => Z.shiftl (Z.land x 0xf) 20;
  DMA_CS_DISDEBUG := Z.shiftl 1 29;
  DMA_CS_ACTIVE := Z.shiftl 1 0;
  DMA_CS_END := Z.shiftl 1 1;
  DMA_CS_ABORT := Z.shiftl 1 30;
  DMA_CS_RESET := Z.shiftl 1 31;
  PWM_BASE := 0x0020C000;
  PWM_CTL := 0x00;
  PWM_DMAC := 0x08;
  PWM_RNG1 := 0x10;
  PWM_CTL_PWEN1 := Z.shiftl 1 0;
  PWM_CTL_CLRF := Z.shiftl 1 6;
  PWM_CTL_USEF1 := Z.shiftl 1 5;
  PWM_DMAC_ENAB := Z.shiftl 1 31;
  PWM_DMAC_PANIC := fun x => Z.shiftl x 8;
  PWM_DMAC_DREQ := fun x => x;
  CM_BASE := 0x00101000;
  CM_CNTL := 40;
  CM_DIV := 44;
  CM_PASSWORD := 0x5A000000;
  CM_SRC_PLLD := 6;
  CM_ENABLE := Z.shiftl 1 4;
  CM_DIV_VALUE := fun x => Z.shiftl x 12
|}.

(** ** Register windows and the world outside the process *)

(** Modelled from the spec: [PhysicalMemory] of [rpgpio_private] (the
    spec's RegisterWindow), a window of 32-bit registers mapped at a
    physical address, each access a single volatile load or store. The
    object holds no state of its own; what a load returns is decided by the
    device behind it. *)
Record PhysicalMemory := { phys_address : Z }.

(** Everything the process does that is visible outside it, in program
    order: register loads and stores, sleeps, log lines. *)
Inductive event :=
| ev_read_int (window : PhysicalMemory) (address value : Z)
| ev_write_int (window : PhysicalMemory) (address value : Z)
| ev_sleep (microseconds : Z)
| ev_log_info (current_address : Z).

(** A register load is volatile: its value is the device's answer, which
    may depend on everything that happened before. *)
Class device := respond : list event -> PhysicalMemory -> Z -> Z.

Definition is_hw_write (e : event) : bool :=
  match e with ev_write_int _ _ _ => true | _ => false end.

Definition is_hw_read (e : event) : bool :=
  match e with ev_read_int _ _ _ => true | _ => false end.

Definition is_sleep (e : event) : bool :=
  match e with ev_sleep _ => true | _ => false end.

(** The register stores of a history, oldest first. *)
Definition hw_writes (h : list event) : list event := List.filter is_hw_write h.

(** ** The descriptor buffer *)

(** Modelled from the spec: [CMAPhysicalMemory] of [rpgpio_private] (the
    spec's ContiguousBuffer) with its capacity [get_size] and its bus
    address [get_bus_address]. A cell is keyed by the byte offset of its
    32-bit word and holds the integer it was handed; a key that was never
    written has no entry. An integer outside [0, 2 ^ 32) is not a word the
    real buffer can hold: the properties that say which value a cell holds
    assume the value is in that range ([uint32] below). *)
Record CMAPhysicalMemory := {
  cells : gmap Z Z;
  get_size : Z;
  get_bus_address : Z
}.

(** Modelled from the spec: the words of a sequence stored at consecutive
    4-byte offsets, first word at [address] (the spec's writeWords). *)
Fixpoint write_words (address : Z) (data : list Z) (m : gmap Z Z) : gmap Z Z :=
  match data with
  | [] => m
  | w :: ws => write_words (address + 4) ws (<[address := w]> m)
  end.

(** Modelled from the spec: [CMAPhysicalMemory.write(address, data)]. *)
Definition cma_write (address : Z) (data : list Z) (b : CMAPhysicalMemory)
  : CMAPhysicalMemory :=
  {| cells := write_words address data (cells b);
     get_size := get_size b;
     get_bus_address := get_bus_address b |}.

(** Modelled from the spec: [CMAPhysicalMemory.write_int(address, value)]
    (the spec's write32). *)
Definition cma_write_int (address value : Z) (b : CMAPhysicalMemory)
  : CMAPhysicalMemory :=
  {| cells := <[address := value]> (cells b);
     get_size := get_size b;
     get_bus_address := get_bus_address b |}.

(** The hardware's view of 32 bytes of the buffer: the eight words of a
    descriptor (control) block, in the order the engine reads them. *)
Record control_block := {
  cb_info : Z;
  cb_source : Z;
  cb_destination : Z;
  cb_length : Z;
  cb_stride : Z;
  cb_next : Z;
  cb_trailing0 : Z;
  cb_trailing1 : Z
}.

Definition block_at (m : gmap Z Z) (address : Z) : option control_block :=
  match m !! address, m !! (address + 4), m !! (address + 8), m !! (address + 12),
        m !! (address + 16), m !! (address + 20), m !! (address + 24),
        m !! (address + 28) with
  | Some w0, Some w1, Some w2, Some w3, Some w4, Some w5, Some w6, Some w7 =>
      Some {| cb_info := w0; cb_source := w1; cb_destination := w2;
              cb_length := w3; cb_stride := w4; cb_next := w5;
              cb_trailing0 := w6; cb_trailing1 := w7 |}
  | _, _, _, _, _, _, _, _ => None
  end.

(** ** Objects, outcomes and the method monad *)

Inductive exn :=
| MemoryError (msg : string)
| RuntimeError (msg : string).

(** A machine state: the object a method runs on and the history so far. *)
Record state (O : Type) := mkState { self : O; trace : list event }.
Arguments mkState {O} _ _.
Arguments self {O} _.
Arguments trace {O} _.

(** How a call ends: it returns, it raises, or the allowance of loop
    iterations ran out while it was still polling. Each outcome carries the
    state reached at that point. *)
Inductive result (O A : Type) :=
| Ok (a : A) (s : state O)
| Raise (e : exn) (s : state O)
| OutOfFuel (s : state O).
Arguments Ok {O A} _ _.
Arguments Raise {O A} _ _.
Arguments OutOfFuel {O A} _.

Definition M (O A : Type) := state O -> result O A.

Definition ret {O A} (a : A) : M O A := fun s => Ok a s.

Definition bind {O A B} (m : M O A) (k : A -> M O B) : M O B :=
  fun s =>
    match m s with
    | Ok a s' => k a s'
    | Raise e s' => Raise e s'
    | OutOfFuel s' => OutOfFuel s'
    end.

Notation "'do' x <- m ; k" := (bind m (fun x => k))
  (at level 10, x name, m at level 100, k at level 200).
Notation "m ;; k" := (bind m (fun _ => k))
  (at level 100, k at level 200, right associativity).

Definition raise {O A} (e : exn) : M O A := fun s => Raise e s.
Definition get_self {O} : M O O := fun s => Ok (self s) s.
Definition emit {O} (e : event) : M O unit :=
  fun s => Ok tt (mkState (self s) (trace s ++ [e])).

Definition state_of {O A} (r : result O A) : state O :=
  match r with Ok _ s | Raise _ s | OutOfFuel s => s end.

Definition returns {O A} (r : result O A) : bool :=
  match r with Ok _ _ => true | _ => false end.

Definition raises {O A} (r : result O A) : option exn :=
  match r with Raise e _ => Some e | _ => None end.

Definition out_of_fuel {O A} (r : result O A) : bool :=
  match r with OutOfFuel _ => true | _ => false end.

(** ** Register access, sleeping and logging *)

Section Primitives.

Context `{D : device} {O : Type}.

(** [window.read_int(address)]: one volatile 32-bit load. *)
Definition read_int (window : PhysicalMemory) (address : Z) : M O Z :=
  fun s =>
    let v := respond (trace s) window address in
    Ok v (mkState (self s) (trace s ++ [ev_read_int window address v])).

(** [window.write_int(address, value)]: one volatile 32-bit store. *)
Definition write_int (window : PhysicalMemory) (address value : Z) : M O unit :=
  emit (ev_write_int window address value).

(** [time.sleep(seconds)], the argument kept in microseconds. *)
Definition time_sleep (microseconds : Z) : M O unit :=
  emit (ev_sleep microseconds).

(** [logging.info("DMA took {}MB of memory".format(...))]: the line is
    recorded with the cursor it reports; the rounding to megabytes is
    floating point and is left out. *)
Definition logging_info (current_address : Z) : M O unit :=
  emit (ev_log_info current_address).

End Primitives.

(** [int(a / b)]: true division, then truncation toward zero. The
    floating-point quotient has the same integer part as the exact one for
    [0 <= a < 2 ^ 53] and the divisors 10 and 32 of the source; beyond that
    range the two differ, and the properties that name a register address
    computed this way assume the pin number is in it. *)
Definition int_div (a b : Z) : Z := Z.quot a b.

(** ** class GPIO *)

Module GPIO.

Definition MODE_OUTPUT : Z := 1.
Definition MODE_INPUT_NOPULL : Z := 2.
Definition MODE_INPUT_PULLUP : Z := 3.
Definition MODE_INPUT_PULLDOWN : Z := 4.

Record t := { _mem : PhysicalMemory }.

Section Methods.

Context `{K : rpgpio_private} `{D : device}.

Definition __init__ : t :=
  {| _mem := {| phys_address := PERI_BASE + GPIO_REGISTER_BASE |} |}.

Definition _pullupdn (pin mode : Z) : M t unit :=
  do self <- get_self;
  do p <- read_int (_mem self) GPIO_PULLUPDN_OFFSET;
  let p := Z.land p (Z.lnot 3) in
  let p := if mode =? MODE_INPUT_PULLUP then Z.lor p 2
           else if mode =? MODE_INPUT_PULLDOWN then Z.lor p 1
           else p in
  write_int (_mem self) GPIO_PULLUPDN_OFFSET p ;;
  let addr := 4 * int_div pin 32 + GPIO_PULLUPDNCLK_OFFSET in
  write_int (_mem self) addr (Z.shiftl 1 (pin mod 32)) ;;
  do p <- read_int (_mem self) GPIO_PULLUPDN_OFFSET;
  let p := Z.land p (Z.lnot 3) in
  write_int (_mem self) GPIO_PULLUPDN_OFFSET p ;;
  write_int (_mem self) addr 0.

Definition init (pin mode : Z) : M t unit :=
  do self <- get_self;
  let addr := 4 * int_div pin 10 + GPIO_FSEL_OFFSET in
  do v <- read_int (_mem self) addr;
  let v := Z.land v (Z.lnot (Z.shiftl 7 ((pin mod 10) * 3))) in
  if mode =? MODE_OUTPUT then
    let v := Z.lor v (Z.shiftl 1 ((pin mod 10) * 3)) in
    write_int (_mem self) addr v
  else
    write_int (_mem self) addr v ;;
    _pullupdn pin mode.

Definition set (pin : Z) : M t unit :=
  do self <- get_self;
  let addr := 4 * int_div pin 32 + GPIO_SET_OFFSET in
  write_int (_mem self) addr (Z.shiftl 1 (pin mod 32)).

Definition clear (pin : Z) : M t unit :=
  do self <- get_self;
  let addr := 4 * int_div pin 32 + GPIO_CLEAR_OFFSET in
  write_int (_mem self) addr (Z.shiftl 1 (pin mod 32)).

Definition read (pin : Z) : M t Z :=
  do self <- get_self;
  let addr := 4 * int_div pin 32 + GPIO_INPUT_OFFSET in
  do v <- read_int (_mem self) addr;
  let v := Z.land v (Z.shiftl 1 (pin mod 32)) in
  if v =? 0 then ret 0 else ret 1.

End Methods.

End GPIO.

(** ** class DMAGPIO *)

Module DMAGPIO.

Definition _DMA_CONTROL_BLOCK_SIZE : Z := 32.
Definition _DMA_CHANNEL : Z := 5.

Record t := {
  _physmem : CMAPhysicalMemory;
  __current_address : Z;
  _dma : PhysicalMemory;
  _pwm : PhysicalMemory;
  _clock : PhysicalMemory;
  _delay_info : Z;
  _delay_destination : Z;
  _delay_stride : Z;
  _pulse_info : Z;
  _pulse_destination : Z;
  _pulse_length : Z;
  _pulse_stride : Z
}.

(** [self._physmem] mutated in place; every other attribute kept. *)
Definition with_physmem (b : CMAPhysicalMemory) (o : t) : t :=
  {| _physmem := b;
     __current_address := __current_address o;
     _dma := _dma o; _pwm := _pwm o; _clock := _clock o;
     _delay_info := _delay_info o;
     _delay_destination := _delay_destination o;
     _delay_stride := _delay_stride o;
     _pulse_info := _pulse_info o;
     _pulse_destination := _pulse_destination o;
     _pulse_length := _pulse_length o;
     _pulse_stride := _pulse_stride o |}.

(** [self.__current_address = a]. *)
Definition with_current_address (a : Z) (o : t) : t :=
  {| _physmem := _physmem o;
     __current_address := a;
     _dma := _dma o; _pwm := _pwm o; _clock := _clock o;
     _delay_info := _delay_info o;
     _delay_destination := _delay_destination o;
     _delay_stride := _delay_stride o;
     _pulse_info := _pulse_info o;
     _pulse_destination := _pulse_destination o;
     _pulse_length := _pulse_length o;
     _pulse_stride := _pulse_stride o |}.

Definition physmem_write (address : Z) (data : list Z) : M t unit :=
  fun s => Ok tt (mkState (with_physmem (cma_write address data (_physmem (self s))) (self s))
                          (trace s)).

Definition physmem_write_int (address value : Z) : M t unit :=
  fun s => Ok tt (mkState (with_physmem (cma_write_int address value (_physmem (self s))) (self s))
                          (trace s)).

Definition set_current_address (a : Z) : M t unit :=
  fun s => Ok tt (mkState (with_current_address a (self s)) (trace s)).

Section Methods.

Context `{K : rpgpio_private} `{D : device}.

(** The constructor allocates 32 MB of contiguous memory; what the
    allocation holds and where the bus sees it is the platform's choice. *)
Definition __init__ (contents : gmap Z Z) (bus_address : Z) : t :=
  {| _physmem := {| cells := contents;
                    get_size := 32 * 1024 * 1024;
                    get_bus_address := bus_address |};
     __current_address := 0;
     _dma := {| phys_address := PERI_BASE + DMA_BASE |};
     _pwm := {| phys_address := PERI_BASE + PWM_BASE |};
     _clock := {| phys_address := PERI_BASE + CM_BASE |};
     _delay_info := Z.lor (Z.lor (Z.lor DMA_TI_NO_WIDE_BURSTS DMA_SRC_IGNORE)
                                 (DMA_TI_PER_MAP DMA_TI_PER_MAP_PWM))
                          DMA_TI_DEST_DREQ;
     _delay_destination := PHYSICAL_PWM_BUS + 0x18;
     _delay_stride := 0;
     _pulse_info := Z.lor (Z.lor DMA_TI_NO_WIDE_BURSTS DMA_TI_TDMODE)
                          DMA_TI_WAIT_RESP;
     _pulse_destination := PHYSICAL_GPIO_BUS + GPIO_SET_OFFSET;
     _pulse_length := Z.lor (DMA_TI_TXFR_LEN_YLENGTH 2)
                            (DMA_TI_TXFR_LEN_XLENGTH 4);
     _pulse_stride := Z.lor (DMA_TI_STRIDE_D_STRIDE 12)
                            (DMA_TI_STRIDE_S_STRIDE 4) |}.

Definition add_pulse (pins_mask length_us : Z) : M t unit :=
  do self <- get_self;
  let next_cb := __current_address self + 3 * _DMA_CONTROL_BLOCK_SIZE in
  if next_cb >? get_size (_physmem self) then
    raise (MemoryError "Out of allocated memory.")
  else
    let next3 := next_cb + get_bus_address (_physmem self) in
    let next2 := next3 - _DMA_CONTROL_BLOCK_SIZE in
    let next1 := next2 - _DMA_CONTROL_BLOCK_SIZE in
    let source1 := next1 - 8 in
    let length2 := 16 * length_us in
    let source3 := next3 - 8 in
    let data :=
      [ _pulse_info self; source1; _pulse_destination self;
          _pulse_length self;
        _pulse_stride self; next1; pins_mask; 0;
        _delay_info self; 0; _delay_destination self; length2;
        _delay_stride self; next2; 0; 0;
        _pulse_info self; source3; _pulse_destination self;
          _pulse_length self;
        _pulse_stride self; next3; 0; pins_mask ] in
    physmem_write (__current_address self) data ;;
    set_current_address next_cb.

Definition add_delay (delay_us : Z) : M t unit :=
  do self <- get_self;
  let next_cb := __current_address self + _DMA_CONTROL_BLOCK_SIZE in
  if next_cb >? get_size (_physmem self) then
    raise (MemoryError "Out of allocated memory.")
  else
    let next := get_bus_address (_physmem self) + next_cb in
    let source := next - 8 in
    let length := 16 * delay_us in
    let data :=
      [ _delay_info self; source; _delay_destination self; length;
        _delay_stride self; next; 0; 0 ] in
    physmem_write (__current_address self) data ;;
    set_current_address next_cb.

Definition finalize_stream : M t unit :=
  do self <- get_self;
  physmem_write_int (__current_address self + 20 - _DMA_CONTROL_BLOCK_SIZE) 0 ;;
  logging_info (__current_address self).

(** The loop of [run_stream]:
    [while (self._clock.read_int(CM_CNTL) & (1 << 7)) != 0: time.sleep(0.00001)].
    One unit of [fuel] pays for one evaluation of the loop condition. *)
Fixpoint wait_not_busy (fuel : nat) : M t unit :=
  match fuel with
  | O => fun s => OutOfFuel s
  | S fuel' =>
      do self <- get_self;
      do v <- read_int (_clock self) CM_CNTL;
      if negb (Z.land v (Z.shiftl 1 7) =? 0) then
        time_sleep 10 ;;
        wait_not_busy fuel'
      else ret tt
  end.

Definition run_stream (fuel : nat) : M t unit :=
  do self <- get_self;
  write_int (_pwm self) PWM_CTL 0 ;;
  write_int (_clock self) CM_CNTL (Z.lor CM_PASSWORD CM_SRC_PLLD) ;;
  wait_not_busy fuel ;;
  write_int (_clock self) CM_DIV (Z.lor CM_PASSWORD (CM_DIV_VALUE 50)) ;;
  write_int (_clock self) CM_CNTL (Z.lor (Z.lor CM_PASSWORD CM_SRC_PLLD) CM_ENABLE) ;;
  write_int (_pwm self) PWM_RNG1 100 ;;
  write_int (_pwm self) PWM_DMAC
    (Z.lor (Z.lor PWM_DMAC_ENAB (PWM_DMAC_PANIC 15)) (PWM_DMAC_DREQ 15)) ;;
  write_int (_pwm self) PWM_CTL PWM_CTL_CLRF ;;
  write_int (_pwm self) PWM_CTL (Z.lor PWM_CTL_USEF1 PWM_CTL_PWEN1) ;;
  let addr := 0x100 * _DMA_CHANNEL in
  do cs <- read_int (_dma self) addr;
  let cs := Z.lor cs DMA_CS_END in
  write_int (_dma self) addr cs ;;
  write_int (_dma self) (addr + 4) (get_bus_address (_physmem self)) ;;
  let cs := Z.lor (Z.lor (DMA_CS_PRIORITY 7) (DMA_CS_PANIC_PRIORITY 7))
                  DMA_CS_DISDEBUG in
  write_int (_dma self) addr cs ;;
  let cs := Z.lor cs DMA_CS_ACTIVE in
  write_int (_dma self) addr cs.

Definition run (fuel : nat) (loop : bool) : M t unit :=
  do self <- get_self;
  if __current_address self =? 0 then
    raise (RuntimeError "Nothing was added.")
  else
    (if loop then
       physmem_write_int (__current_address self + 20 - _DMA_CONTROL_BLOCK_SIZE)
                         (get_bus_address (_physmem self))
     else
       finalize_stream) ;;
    run_stream fuel.

Definition stop : M t unit :=
  do self <- get_self;
  write_int (_pwm self) PWM_CTL 0 ;;
  let addr := 0x100 * _DMA_CHANNEL in
  do cs <- read_int (_dma self) addr;
  let cs := Z.lor cs DMA_CS_ABORT in
  write_int (_dma self) addr cs ;;
  let cs := Z.land cs (Z.lnot DMA_CS_ACTIVE) in
  write_int (_dma self) addr cs ;;
  let cs := Z.lor cs DMA_CS_RESET in
  write_int (_dma self) addr cs.

Definition is_active : M t bool :=
  do self <- get_self;
  let addr := 0x100 * _DMA_CHANNEL in
  do cs <- read_int (_dma self) addr;
  if Z.land cs DMA_CS_ACTIVE =? DMA_CS_ACTIVE then ret true else ret false.

Definition clear : M t unit :=
  set_current_address 0.

(** *** Sequences of calls *)

Inductive call :=
| call_add_pulse (pins_mask length_us : Z)
| call_add_delay (delay_us : Z)
| call_finalize_stream
| call_run_stream
| call_run (loop : bool)
| call_stop
| call_is_active
| call_clear.

Definition perform (fuel : nat) (c : call) : M t unit :=
  match c with
  | call_add_pulse pins_mask length_us => add_pulse pins_mask length_us
  | call_add_delay delay_us => add_delay delay_us
  | call_finalize_stream => finalize_stream
  | call_run_stream => run_stream fuel
  | call_run loop => run fuel loop
  | call_stop => stop
  | call_is_active => is_active ;; ret tt
  | call_clear => clear
  end.

(** Calls one after the other; an exception ends the sequence, as in
    straight-line Python. *)
Fixpoint perform_all (fuel : nat) (cs : list call) : M t unit :=
  match cs with
  | [] => ret tt
  | c :: cs' => perform fuel c ;; perform_all fuel cs'
  end.

(** [try: m  except (MemoryError, RuntimeError): pass]. *)
Definition try_except {A} (m : M t A) : M t unit :=
  fun s =>
    match m s with
    | Ok _ s' => Ok tt s'
    | Raise _ s' => Ok tt s'
    | OutOfFuel s' => OutOfFuel s'
    end.

(** Calls one after the other, the caller catching every exception and
    going on with the next call. *)
Fixpoint attempt_all (fuel : nat) (cs : list call) : M t unit :=
  match cs with
  | [] => ret tt
  | c :: cs' => try_except (perform fuel c) ;; attempt_all fuel cs'
  end.

End Methods.

End DMAGPIO.

(** ** Devices used as concrete platforms *)

(** Every register reads 0: in particular the clock is never busy. *)
Definition quiet_device : device := fun _ _ _ => 0.

(** Every register reads with bit 7 set: the clock stays busy for ever. *)
Definition stuck_busy_device : device := fun _ _ _ => Z.shiftl 1 7.

(** The clock answers busy to the first [n] loads and not busy afterwards. *)
Definition busy_for (n : nat) : device :=
  fun h _ _ =>
    if (length (List.filter is_hw_read h) <? n)%nat then Z.shiftl 1 7 else 0.

(** The device seen by a program that starts after history [h0]. *)
Definition device_after (h0 : list event) (D : device) : device :=
  fun h => D (h0 ++ h).

(** A small engine for examples: a 256-byte buffer at bus address
    [0xC0000000] with the constructor's other attributes. *)
Definition small_engine (current_address : Z) : DMAGPIO.t :=
  DMAGPIO.with_current_address current_address
    (DMAGPIO.with_physmem
       {| cells := ∅; get_size := 256; get_bus_address := 0xC0000000 |}
       (DMAGPIO.__init__ (K := bcm283x) ∅ 0xC0000000)).

(** ** Views used to state the properties *)

(** The pull code of the spec's protocol: 2 for pull-up, 1 for pull-down,
    0 for no pull. *)
Definition pull_state_bits (mode : Z) : Z :=
  if mode =? GPIO.MODE_INPUT_PULLUP then 2
  else if mode =? GPIO.MODE_INPUT_PULLDOWN then 1
  else 0.

(** A block with its next field replaced. *)
Definition with_next (v : Z) (b : control_block) : control_block :=
  {| cb_info := cb_info b; cb_source := cb_source b;
     cb_destination := cb_destination b; cb_length := cb_length b;
     cb_stride := cb_stride b; cb_next := v;
     cb_trailing0 := cb_trailing0 b; cb_trailing1 := cb_trailing1 b |}.

(** A computation that leaves the object alone and never raises. *)
Definition register_only {O A} (m : M O A) : Prop :=
  forall s, self (state_of (m s)) = self s /\ raises (m s) = None.

(** A computation that never runs out of fuel. *)
Definition never_blocks {O A} (m : M O A) : Prop :=
  forall s, out_of_fuel (m s) = false.

(** The same outcome with history [h0] put in front of its history. *)
Definition prefix_result {O A} (h0 : list event) (r : result O A) : result O A :=
  match r with
  | Ok a s => Ok a (mkState (self s) (h0 ++ trace s))
  | Raise e s => Raise e (mkState (self s) (h0 ++ trace s))
  | OutOfFuel s => OutOfFuel (mkState (self s) (h0 ++ trace s))
  end.

(** [m] started after history [h0] does what [m'] does started on an
    empty history, [h0] put in front. *)
Definition same_after {O A} (h0 : list event) (m m' : M O A) : Prop :=
  forall o h, m (mkState o (h0 ++ h)) = prefix_result h0 (m' (mkState o h)).

(** The loop condition: bit 7 (BUSY) of the word read from [CM_CNTL]. *)
Definition busy (v : Z) : bool := negb (Z.land v (Z.shiftl 1 7) =? 0).

(** An engine as the constructor leaves it, up to buffer contents and
    cursor. *)
Definition constructed `{K : rpgpio_private} (o : DMAGPIO.t) : Prop :=
  exists contents bus_address current_address,
    o = DMAGPIO.with_current_address current_address
          (DMAGPIO.__init__ contents bus_address).

Section Views.

Context `{K : rpgpio_private} `{D : device}.

(** The history after [n] rounds of the loop that all found the clock
    busy: each round is one load of [CM_CNTL] and one 10 microsecond
    sleep. *)
Fixpoint polling_history (clock : PhysicalMemory) (h : list event) (n : nat)
  : list event :=
  match n with
  | O => h
  | S n' =>
      polling_history clock
        (h ++ [ev_read_int clock CM_CNTL (respond h clock CM_CNTL); ev_sleep 10]) n'
  end.

(** The register programming of [run_stream] that follows the busy-wait. *)
Definition after_wait (o : DMAGPIO.t) (h : list event) : list event :=
  let addr := 0x100 * DMAGPIO._DMA_CHANNEL in
  let clock_and_pwm :=
    [ ev_write_int (DMAGPIO._clock o) CM_DIV (Z.lor CM_PASSWORD (CM_DIV_VALUE 50));
      ev_write_int (DMAGPIO._clock o) CM_CNTL
        (Z.lor (Z.lor CM_PASSWORD CM_SRC_PLLD) CM_ENABLE);
      ev_write_int (DMAGPIO._pwm o) PWM_RNG1 100;
      ev_write_int (DMAGPIO._pwm o) PWM_DMAC
        (Z.lor (Z.lor PWM_DMAC_ENAB (PWM_DMAC_PANIC 15)) (PWM_DMAC_DREQ 15));
      ev_write_int (DMAGPIO._pwm o) PWM_CTL PWM_CTL_CLRF;
      ev_write_int (DMAGPIO._pwm o) PWM_CTL (Z.lor PWM_CTL_USEF1 PWM_CTL_PWEN1) ] in
  let cs := respond (h ++ clock_and_pwm) (DMAGPIO._dma o) addr in
  let go := Z.lor (Z.lor (DMA_CS_PRIORITY 7) (DMA_CS_PANIC_PRIORITY 7)) DMA_CS_DISDEBUG in
  clock_and_pwm ++
    [ ev_read_int (DMAGPIO._dma o) addr cs;
      ev_write_int (DMAGPIO._dma o) addr (Z.lor cs DMA_CS_END);
      ev_write_int (DMAGPIO._dma o) (addr + 4) (get_bus_address (DMAGPIO._physmem o));
      ev_write_int (DMAGPIO._dma o) addr go;
      ev_write_int (DMAGPIO._dma o) addr (Z.lor go DMA_CS_ACTIVE) ].

(** The two stores of [run_stream] that come before the busy-wait. *)
Definition before_wait (o : DMAGPIO.t) : list event :=
  [ ev_write_int (DMAGPIO._pwm o) PWM_CTL 0;
    ev_write_int (DMAGPIO._clock o) CM_CNTL (Z.lor CM_PASSWORD CM_SRC_PLLD) ].

End Views.

(** ** Views of the chain in the buffer *)

(** Blocks [0 .. n-1] of the buffer are all there and each one's next
    field is the bus address of the block that follows it. *)
Definition linked (m : gmap Z Z) (bus : Z) (n : Z) : Prop :=
  forall k, 0 <= k < n ->
    exists b, block_at m (32 * k) = Some b /\ cb_next b = bus + 32 * (k + 1).

(** The cursor is a whole number of blocks and the blocks below it are
    linked in buffer order. *)
Definition well_linked (o : DMAGPIO.t) : Prop :=
  exists n, 0 <= n /\ DMAGPIO.__current_address o = 32 * n /\
    linked (cells (DMAGPIO._physmem o)) (get_bus_address (DMAGPIO._physmem o)) n.

(** Blocks [0 .. n-1] are linked in order except the last, whose next
    field is [last_next]. *)
Definition closed_chain (m : gmap Z Z) (bus : Z) (n : Z) (last_next : Z) : Prop :=
  forall k, 0 <= k < n ->
    exists b, block_at m (32 * k) = Some b /\
      cb_next b = if k =? n - 1 then last_next else bus + 32 * (k + 1).

(** The calls that build a chain. *)
Definition is_builder (c : DMAGPIO.call) : bool :=
  match c with
  | DMAGPIO.call_add_pulse _ _ | DMAGPIO.call_add_delay _ | DMAGPIO.call_clear => true
  | _ => false
  end.

(** ** cnc/main.py: the HTTP command front-end *)

Module Server.

(** What can be raised: the two exception classes [do_line] catches, the
    ones the handler's own expressions raise, and any other. The string is
    [str(e)]. *)
Inductive raised :=
| GCodeException (str : string)
| GMachineException (str : string)
| KeyError (key : string)
| IndexError (str : string)
| TypeError (str : string)
| OtherException (str : string).

(** [except (GCodeException, GMachineException) as e]. *)
Definition caught (e : raised) : option string :=
  match e with
  | GCodeException str | GMachineException str => Some str
  | _ => None
  end.

(** The values [do_line] can hand back. *)
Inductive value :=
| PyFalse
| PyTrue
| PyStr (s : string).

(** What the process sends out, in program order. *)
Inductive output :=
| out_print (line : string)
| out_send_response (code : Z)
| out_end_headers
| out_wfile_write (body : string).

Section Handler.

(** The collaborators that are not in the source: the parsed command, the
    state of the global [machine], [GCode.parse_line], [machine.do_command]
    (it returns a string or [None], or raises, and may change the machine
    either way), and [urlparse.parse_qs(urlparse.urlparse(path).query)]. *)
Variables gcode machine : Type.
Variable parse_line : string -> gcode + raised.
Variable do_command : gcode -> machine -> (option string + raised) * machine.
Variable parse_qs : string -> gmap string (list string).

Record world := mkWorld { the_machine : machine; outputs : list output }.

Definition send (o : output) (w : world) : world :=
  mkWorld (the_machine w) (outputs w ++ [o]).

(** The [except] clause of [do_line]: print and return [False] for the
    two caught classes, let anything else through. *)
Definition handle (e : raised) (w : world) : (value + raised) * world :=
  match caught e with
  | Some str => (inl PyFalse, send (out_print ("ERROR " ++ str)) w)
  | None => (inr e, w)
  end.

Definition do_line (line : string) (w : world) : (value + raised) * world :=
  match parse_line line with
  | inr e => handle e w
  | inl g =>
      let (res, m') := do_command g (the_machine w) in
      let w' := mkWorld m' (outputs w) in
      match res with
      | inr e => handle e w'
      | inl (Some r) => (inl (PyStr ("OK " ++ r)), w')
      | inl None => (inl (PyStr "OK"), w')
      end
  end.

(** [bytes(response, "utf-8")]: the text of a string; for any other
    value Python raises [TypeError]. *)
Definition bytes_utf8 (response : value) : string + raised :=
  match response with
  | PyStr s => inl s
  | _ => inr (TypeError "encoding without a string argument")
  end.

Definition do_GET (path : string) (w : world) : (unit + raised) * world :=
  let query := parse_qs path in
  match query !! "com"%string with
  | None => (inr (KeyError "com"), w)
  | Some [] => (inr (IndexError "list index out of range"), w)
  | Some (command :: _) =>
      match do_line command w with
      | (inr e, w1) => (inr e, w1)
      | (inl response, w1) =>
          let w2 := send (out_send_response 200) w1 in
          let w3 := send out_end_headers w2 in
          match bytes_utf8 response with
          | inr e => (inr e, w3)
          | inl body => (inl tt, send (out_wfile_write body) w3)
          end
      end
  end.

End Handler.

Arguments mkWorld {machine} _ _.
Arguments the_machine {machine} _.
Arguments outputs {machine} _.
Arguments send {machine} _ _.
Arguments handle {machine} _ _.
Arguments do_line {gcode machine} _ _ _ _.
Arguments do_GET {gcode machine} _ _ _ _ _.

End Server.

(** ** 32-bit words *)

(** A value a 32-bit word of the buffer can hold. *)
Definition uint32 (v : Z) : Prop := 0 <= v < 2 ^ 32.

(** A descriptor block made of eight 32-bit words. *)
Definition uint32_block (b : control_block) : Prop :=
  uint32 (cb_info b) /\ uint32 (cb_source b) /\ uint32 (cb_destination b) /\
  uint32 (cb_length b) /\ uint32 (cb_stride b) /\ uint32 (cb_next b) /\
  uint32 (cb_trailing0 b) /\ uint32 (cb_trailing1 b).

(** The engine's precomputed descriptor words are 32-bit words and its
    buffer, end included, lies in the 32-bit bus address space. *)
Definition words_fit (o : DMAGPIO.t) : Prop :=
  uint32 (DMAGPIO._pulse_info o) /\ uint32 (DMAGPIO._pulse_destination o) /\
  uint32 (DMAGPIO._pulse_length o) /\ uint32 (DMAGPIO._pulse_stride o) /\
  uint32 (DMAGPIO._delay_info o) /\ uint32 (DMAGPIO._delay_destination o) /\
  uint32 (DMAGPIO._delay_stride o) /\
  0 <= get_bus_address (DMAGPIO._physmem o) /\
  get_bus_address (DMAGPIO._physmem o) + get_size (DMAGPIO._physmem o) < 2 ^ 32.

(** The set or clear block [add_pulse] stores at byte offset [address]
    of the buffer of engine [o], with trailing words [first; second]. *)
Definition level_block (o : DMAGPIO.t) (address first second : Z) : control_block :=
  {| cb_info := DMAGPIO._pulse_info o;
     cb_source := get_bus_address (DMAGPIO._physmem o) + (address + 24);
     cb_destination := DMAGPIO._pulse_destination o;
     cb_length := DMAGPIO._pulse_length o;
     cb_stride := DMAGPIO._pulse_stride o;
     cb_next := get_bus_address (DMAGPIO._physmem o) + (address + 32);
     cb_trailing0 := first;
     cb_trailing1 := second |}.

(** The delay block [add_pulse _ length_us] stores between them. *)
Definition paced_block (o : DMAGPIO.t) (length_us address : Z) : control_block :=
  {| cb_info := DMAGPIO._delay_info o;
     cb_source := 0;
     cb_destination := DMAGPIO._delay_destination o;
     cb_length := 16 * length_us;
     cb_stride := DMAGPIO._delay_stride o;
     cb_next := get_bus_address (DMAGPIO._physmem o) + (address + 32);
     cb_trailing0 := 0;
     cb_trailing1 := 0 |}.

(** The delay block [add_delay delay_us] stores at byte offset [address]
    of the buffer of engine [o]. *)
Definition delay_block (o : DMAGPIO.t) (delay_us address : Z) : control_block :=
  {| cb_info := DMAGPIO._delay_info o;
     cb_source := get_bus_address (DMAGPIO._physmem o) + (address + 24);
     cb_destination := DMAGPIO._delay_destination o;
     cb_length := 16 * delay_us;
     cb_stride := DMAGPIO._delay_stride o;
     cb_next := get_bus_address (DMAGPIO._physmem o) + (address + 32);
     cb_trailing0 := 0;
     cb_trailing1 := 0 |}.

(** * Properties *)

(** ** The scenario of the source's [main]: a pulse, a delay, a looped run *)

Example main_scenario_returns :
  returns (DMAGPIO.perform_all (K := bcm283x) (D := busy_for 1) 2
             [DMAGPIO.call_add_pulse (Z.shiftl 1 21) 4000;
              DMAGPIO.call_add_delay 12000;
              DMAGPIO.call_run true; DMAGPIO.call_stop]
             (mkState (small_engine 0) [])) = true.
Proof. vm_compute. reflexivity. Qed.

Example main_scenario_chain :
  let s := state_of
      (DMAGPIO.perform_all (K := bcm283x) (D := busy_for 1) 2
         [DMAGPIO.call_add_pulse (Z.shiftl 1 21) 4000;
          DMAGPIO.call_add_delay 12000;
          DMAGPIO.call_run true]
         (mkState (small_engine 0) [])) in
  DMAGPIO.__current_address (self s) = 128 /\
  cb_next <$> block_at (cells (DMAGPIO._physmem (self s))) 0 = Some (0xC0000000 + 32) /\
  cb_next <$> block_at (cells (DMAGPIO._physmem (self s))) 32 = Some (0xC0000000 + 64) /\
  cb_next <$> block_at (cells (DMAGPIO._physmem (self s))) 64 = Some (0xC0000000 + 96) /\
  cb_next <$> block_at (cells (DMAGPIO._physmem (self s))) 96 = Some 0xC0000000 /\
  cb_length <$> block_at (cells (DMAGPIO._physmem (self s))) 32 = Some 64000 /\
  List.filter is_sleep (trace s) = [ev_sleep 10].
Proof. vm_compute. repeat split. Qed.

Example out_of_fuel_while_busy :
  out_of_fuel (DMAGPIO.run (K := bcm283x) (D := busy_for 3) 3 false
                 (mkState (small_engine 32) [])) = true.
Proof. vm_compute. reflexivity. Qed.

(** ** The buffer *)

Lemma write_words_lookup_out (data : list Z) : forall a (m : gmap Z Z) k,
  k < a \/ a + 4 * Z.of_nat (length data) <= k ->
  write_words a data m !! k = m !! k.
Proof.
  induction data as [|w ws IH]; intros a m k Hk; simpl; [reflexivity|].
  rewrite IH.
  - apply lookup_insert_ne. simpl length in Hk. lia.
  - simpl length in Hk. lia.
Qed.

Lemma write_words_lookup_in (data : list Z) : forall a (m : gmap Z Z) (i : nat) w,
  data !! i = Some w ->
  write_words a data m !! (a + 4 * Z.of_nat i) = Some w.
Proof.
  induction data as [|x xs IH]; intros a m i w Hi; [discriminate|].
  destruct i as [|i]; cbn [write_words].
  - injection Hi as ->.
    rewrite write_words_lookup_out by lia.
    replace (a + 4 * Z.of_nat 0) with a by lia. apply lookup_insert_eq.
  - replace (a + 4 * Z.of_nat (S i)) with ((a + 4) + 4 * Z.of_nat i) by lia.
    now apply IH.
Qed.

Lemma block_at_write_words (data : list Z) a (m : gmap Z Z) (j : nat) address
      w0 w1 w2 w3 w4 w5 w6 w7 :
  address = a + 32 * Z.of_nat j ->
  data !! (8 * j)%nat = Some w0 -> data !! (8 * j + 1)%nat = Some w1 ->
  data !! (8 * j + 2)%nat = Some w2 -> data !! (8 * j + 3)%nat = Some w3 ->
  data !! (8 * j + 4)%nat = Some w4 -> data !! (8 * j + 5)%nat = Some w5 ->
  data !! (8 * j + 6)%nat = Some w6 -> data !! (8 * j + 7)%nat = Some w7 ->
  block_at (write_words a data m) address =
    Some {| cb_info := w0; cb_source := w1; cb_destination := w2;
            cb_length := w3; cb_stride := w4; cb_next := w5;
            cb_trailing0 := w6; cb_trailing1 := w7 |}.
Proof.
  intros -> H0 H1 H2 H3 H4 H5 H6 H7. unfold block_at.
  replace (a + 32 * Z.of_nat j) with (a + 4 * Z.of_nat (8 * j)) by lia.
  rewrite (write_words_lookup_in _ _ _ _ _ H0).
  replace (a + 4 * Z.of_nat (8 * j) + 4) with (a + 4 * Z.of_nat (8 * j + 1)) by lia.
  rewrite (write_words_lookup_in _ _ _ _ _ H1).
  replace (a + 4 * Z.of_nat (8 * j) + 8) with (a + 4 * Z.of_nat (8 * j + 2)) by lia.
  rewrite (write_words_lookup_in _ _ _ _ _ H2).
  replace (a + 4 * Z.of_nat (8 * j) + 12) with (a + 4 * Z.of_nat (8 * j + 3)) by lia.
  rewrite (write_words_lookup_in _ _ _ _ _ H3).
  replace (a + 4 * Z.of_nat (8 * j) + 16) with (a + 4 * Z.of_nat (8 * j + 4)) by lia.
  rewrite (write_words_lookup_in _ _ _ _ _ H4).
  replace (a + 4 * Z.of_nat (8 * j) + 20) with (a + 4 * Z.of_nat (8 * j + 5)) by lia.
  rewrite (write_words_lookup_in _ _ _ _ _ H5).
  replace (a + 4 * Z.of_nat (8 * j) + 24) with (a + 4 * Z.of_nat (8 * j + 6)) by lia.
  rewrite (write_words_lookup_in _ _ _ _ _ H6).
  replace (a + 4 * Z.of_nat (8 * j) + 28) with (a + 4 * Z.of_nat (8 * j + 7)) by lia.
  rewrite (write_words_lookup_in _ _ _ _ _ H7).
  reflexivity.
Qed.

(** ** Appending to the chain *)

Lemma add_pulse_ok (s : state DMAGPIO.t) (pins_mask length_us : Z) :
  let o := self s in
  let cur := DMAGPIO.__current_address o in
  let bus := get_bus_address (DMAGPIO._physmem o) in
  cur + 96 <= get_size (DMAGPIO._physmem o) ->
  DMAGPIO.add_pulse pins_mask length_us s =
    Ok tt (mkState
      (DMAGPIO.with_current_address (cur + 96)
        (DMAGPIO.with_physmem
          (cma_write cur
            [ DMAGPIO._pulse_info o; cur + 96 + bus - 32 - 32 - 8;
              DMAGPIO._pulse_destination o; DMAGPIO._pulse_length o;
              DMAGPIO._pulse_stride o; cur + 96 + bus - 32 - 32; pins_mask; 0;
              DMAGPIO._delay_info o; 0; DMAGPIO._delay_destination o;
              16 * length_us;
              DMAGPIO._delay_stride o; cur + 96 + bus - 32; 0; 0;
              DMAGPIO._pulse_info o; cur + 96 + bus - 8;
              DMAGPIO._pulse_destination o; DMAGPIO._pulse_length o;
              DMAGPIO._pulse_stride o; cur + 96 + bus; 0; pins_mask ]
            (DMAGPIO._physmem o)) o))
      (trace s)).
Proof.
  intros o cur bus Hfit.
  unfold DMAGPIO.add_pulse, bind, get_self. cbn beta iota.
  change (3 * DMAGPIO._DMA_CONTROL_BLOCK_SIZE) with 96.
  change DMAGPIO._DMA_CONTROL_BLOCK_SIZE with 32.
  fold o. fold cur. fold bus.
  destruct (Z.gtb_spec (cur + 96) (get_size (DMAGPIO._physmem o))) as [Hgt|_]; [lia|].
  reflexivity.
Qed.

Lemma add_pulse_full (s : state DMAGPIO.t) (pins_mask length_us : Z) :
  DMAGPIO.__current_address (self s) + 96 > get_size (DMAGPIO._physmem (self s)) ->
  DMAGPIO.add_pulse pins_mask length_us s =
    Raise (MemoryError "Out of allocated memory.") s.
Proof.
  intros Hfull.
  unfold DMAGPIO.add_pulse, bind, get_self, raise. cbn beta iota.
  change (3 * DMAGPIO._DMA_CONTROL_BLOCK_SIZE) with 96.
  destruct (Z.gtb_spec (DMAGPIO.__current_address (self s) + 96)
                       (get_size (DMAGPIO._physmem (self s)))) as [_|Hle]; [reflexivity|lia].
Qed.

Lemma add_delay_ok (s : state DMAGPIO.t) (delay_us : Z) :
  let o := self s in
  let cur := DMAGPIO.__current_address o in
  let bus := get_bus_address (DMAGPIO._physmem o) in
  cur + 32 <= get_size (DMAGPIO._physmem o) ->
  DMAGPIO.add_delay delay_us s =
    Ok tt (mkState
      (DMAGPIO.with_current_address (cur + 32)
        (DMAGPIO.with_physmem
          (cma_write cur
            [ DMAGPIO._delay_info o; bus + (cur + 32) - 8;
              DMAGPIO._delay_destination o; 16 * delay_us;
              DMAGPIO._delay_stride o; bus + (cur + 32); 0; 0 ]
            (DMAGPIO._physmem o)) o))
      (trace s)).
Proof.
  intros o cur bus Hfit.
  unfold DMAGPIO.add_delay, bind, get_self. cbn beta iota.
  change DMAGPIO._DMA_CONTROL_BLOCK_SIZE with 32.
  fold o. fold cur. fold bus.
  destruct (Z.gtb_spec (cur + 32) (get_size (DMAGPIO._physmem o))) as [Hgt|_]; [lia|].
  reflexivity.
Qed.

Lemma add_delay_full (s : state DMAGPIO.t) (delay_us : Z) :
  DMAGPIO.__current_address (self s) + 32 > get_size (DMAGPIO._physmem (self s)) ->
  DMAGPIO.add_delay delay_us s =
    Raise (MemoryError "Out of allocated memory.") s.
Proof.
  intros Hfull.
  unfold DMAGPIO.add_delay, bind, get_self, raise. cbn beta iota.
  change DMAGPIO._DMA_CONTROL_BLOCK_SIZE with 32.
  destruct (Z.gtb_spec (DMAGPIO.__current_address (self s) + 32)
                       (get_size (DMAGPIO._physmem (self s)))) as [_|Hle]; [reflexivity|lia].
Qed.

(** C1 (amended). When the three blocks fit in the buffer at the
    cursor, [add_pulse pins_mask length_us] with [pins_mask] a 32-bit mask,
    [length_us > 0] and [16 * length_us] a 32-bit word returns, and
    afterwards the 96 bytes from the old cursor hold three descriptor
    blocks: a set block whose source is the bus address of its own trailing
    words and whose trailing words are [pins_mask; 0], a delay block whose
    length word is [16 * length_us], a clear block with trailing words
    [0; pins_mask]; each next field is the bus address of the block that
    follows, the third one that of the new cursor; no other cell of the
    buffer changes, the cursor is 96 further, nothing reaches the
    registers. On an engine whose own descriptor words and buffer addresses
    fit 32 bits, every word of the three blocks is a 32-bit word. *)
Theorem add_pulse_appends_three_blocks
    (s : state DMAGPIO.t) (pins_mask length_us : Z) :
  let o := self s in
  let cur := DMAGPIO.__current_address o in
  let bus := get_bus_address (DMAGPIO._physmem o) in
  let set_block :=
    {| cb_info := DMAGPIO._pulse_info o;
       cb_source := bus + (cur + 24);
       cb_destination := DMAGPIO._pulse_destination o;
       cb_length := DMAGPIO._pulse_length o;
       cb_stride := DMAGPIO._pulse_stride o;
       cb_next := bus + (cur + 32);
       cb_trailing0 := pins_mask;
       cb_trailing1 := 0 |} in
  let wait_block :=
    {| cb_info := DMAGPIO._delay_info o;
       cb_source := 0;
       cb_destination := DMAGPIO._delay_destination o;
       cb_length := 16 * length_us;
       cb_stride := DMAGPIO._delay_stride o;
       cb_next := bus + (cur + 64);
       cb_trailing0 := 0;
       cb_trailing1 := 0 |} in
  let clear_block :=
    {| cb_info := DMAGPIO._pulse_info o;
       cb_source := bus + (cur + 64 + 24);
       cb_destination := DMAGPIO._pulse_destination o;
       cb_length := DMAGPIO._pulse_length o;
       cb_stride := DMAGPIO._pulse_stride o;
       cb_next := bus + (cur + 96);
       cb_trailing0 := 0;
       cb_trailing1 := pins_mask |} in
  0 <= pins_mask < 2 ^ 32 ->
  0 < length_us ->
  16 * length_us < 2 ^ 32 ->
  0 <= cur ->
  cur + 96 <= get_size (DMAGPIO._physmem o) ->
  exists s',
    DMAGPIO.add_pulse pins_mask length_us s = Ok tt s' /\
    block_at (cells (DMAGPIO._physmem (self s'))) cur = Some set_block /\
    block_at (cells (DMAGPIO._physmem (self s'))) (cur + 32) = Some wait_block /\
    block_at (cells (DMAGPIO._physmem (self s'))) (cur + 64) = Some clear_block /\
    uint32 (cb_length wait_block) /\
    (words_fit o ->
       uint32_block set_block /\ uint32_block wait_block /\ uint32_block clear_block) /\
    (forall k, k < cur \/ cur + 96 <= k ->
       cells (DMAGPIO._physmem (self s')) !! k = cells (DMAGPIO._physmem o) !! k) /\
    DMAGPIO.__current_address (self s') = cur + 96 /\
    get_size (DMAGPIO._physmem (self s')) = get_size (DMAGPIO._physmem o) /\
    get_bus_address (DMAGPIO._physmem (self s')) = bus /\
    trace s' = trace s.
Proof.
  intros o cur bus set_block wait_block clear_block Hmask Hpos Hlen Hcur Hfit.
  eexists. split; [apply add_pulse_ok; exact Hfit|].
  fold o. fold cur. fold bus. cbn [self trace DMAGPIO.with_current_address
    DMAGPIO.with_physmem DMAGPIO._physmem DMAGPIO.__current_address cma_write
    cells get_size get_bus_address].
  split; [|split; [|split; [|split; [|split; [|split; [|split; [|split; [|split]]]]]]]];
    try reflexivity.
  - erewrite (block_at_write_words _ _ _ 0); [|lia|reflexivity..].
    unfold set_block. do 2 f_equal; lia.
  - erewrite (block_at_write_words _ _ _ 1); [|lia|reflexivity..].
    unfold wait_block. do 2 f_equal; lia.
  - erewrite (block_at_write_words _ _ _ 2); [|lia|reflexivity..].
    unfold clear_block. do 2 f_equal; lia.
  - unfold uint32, wait_block. cbn [cb_length]. lia.
  - intros (Hpi & Hpd & Hpl & Hps & Hdi & Hdd & Hds & Hbus & Hend).
    fold o in Hpi, Hpd, Hpl, Hps, Hdi, Hdd, Hds, Hbus, Hend. fold bus in Hbus, Hend.
    unfold uint32_block, uint32 in *.
    cbn [set_block wait_block clear_block cb_info cb_source cb_destination cb_length
      cb_stride cb_next cb_trailing0 cb_trailing1].
    repeat split; lia.
  - intros k Hk. apply write_words_lookup_out. simpl length. lia.
Qed.

Lemma add_pulse_appends_three_blocks_witness :
  exists s',
    DMAGPIO.add_pulse 5 100 (mkState (small_engine 32) []) = Ok tt s' /\
    block_at (cells (DMAGPIO._physmem (self s'))) 64 =
      Some {| cb_info := 0x4050840; cb_source := 0;
              cb_destination := 0x7E20C018; cb_length := 1600;
              cb_stride := 0; cb_next := 0xC0000000 + 96;
              cb_trailing0 := 0; cb_trailing1 := 0 |} /\
    uint32_block {| cb_info := 0x4050840; cb_source := 0;
                    cb_destination := 0x7E20C018; cb_length := 1600;
                    cb_stride := 0; cb_next := 0xC0000000 + 96;
                    cb_trailing0 := 0; cb_trailing1 := 0 |} /\
    DMAGPIO.__current_address (self s') = 128.
Proof.
  destruct (add_pulse_appends_three_blocks (mkState (small_engine 32) []) 5 100)
    as (s' & Hrun & _ & Hdelay & _ & _ & Hwords & _ & Hcur & _);
    [lia | lia | lia | vm_compute; discriminate | vm_compute; discriminate |].
  exists s'. split; [exact Hrun|]. split; [exact Hdelay|]. split; [|exact Hcur].
  apply Hwords. unfold words_fit, uint32. vm_compute.
  repeat split; (discriminate || reflexivity).
Defined.

(** At [length_us = 2 ^ 28] the call returns and the length word it hands
    to the buffer is [2 ^ 32]: the delay block it describes is not a block
    of 32-bit words, and no block of 32-bit words has the length word
    [16 * length_us]. *)
Lemma add_pulse_length_word_exceeds_32_bits :
  let r := DMAGPIO.add_pulse 1 (2 ^ 28) (mkState (small_engine 0) []) in
  let written := cells (DMAGPIO._physmem (self (state_of r))) in
  returns r = true /\
  cb_length <$> block_at written 32 = Some (16 * 2 ^ 28) /\
  ~ (exists b, block_at written 32 = Some b /\ uint32_block b /\
               cb_length b = 16 * 2 ^ 28).
Proof.
  intros r written. split; [reflexivity|]. split; [vm_compute; reflexivity|].
  intros (b & _ & (_ & _ & _ & Hlen & _) & Heq).
  unfold uint32 in Hlen. rewrite Heq in Hlen. lia.
Qed.

(** C2. An [add_pulse] or [add_delay] that would move the cursor past the
    capacity raises [MemoryError] (the spec's CapacityError) from the very
    state it was called in: cursor, every buffer cell and the register
    history are the ones before the call, so every block appended earlier
    is still read back unchanged. *)
Theorem append_beyond_capacity_is_atomic
    (s : state DMAGPIO.t) (pins_mask length_us delay_us : Z) :
  let cur := DMAGPIO.__current_address (self s) in
  let size := get_size (DMAGPIO._physmem (self s)) in
  (cur + 96 > size ->
     DMAGPIO.add_pulse pins_mask length_us s =
       Raise (MemoryError "Out of allocated memory.") s) /\
  (cur + 32 > size ->
     DMAGPIO.add_delay delay_us s =
       Raise (MemoryError "Out of allocated memory.") s) /\
  (cur + 96 > size ->
     forall address,
       block_at (cells (DMAGPIO._physmem
                  (self (state_of (DMAGPIO.add_pulse pins_mask length_us s))))) address =
       block_at (cells (DMAGPIO._physmem (self s))) address) /\
  (cur + 32 > size ->
     forall address,
       block_at (cells (DMAGPIO._physmem
                  (self (state_of (DMAGPIO.add_delay delay_us s))))) address =
       block_at (cells (DMAGPIO._physmem (self s))) address).
Proof.
  intros cur size. repeat split; intros Hfull.
  - now apply add_pulse_full.
  - now apply add_delay_full.
  - intros address. now rewrite add_pulse_full.
  - intros address. now rewrite add_delay_full.
Qed.

Lemma append_beyond_capacity_is_atomic_witness :
  DMAGPIO.add_pulse 1 100 (mkState (small_engine 192) []) =
    Raise (MemoryError "Out of allocated memory.") (mkState (small_engine 192) []) /\
  DMAGPIO.add_delay 50 (mkState (small_engine 256) []) =
    Raise (MemoryError "Out of allocated memory.") (mkState (small_engine 256) []).
Proof.
  split.
  - apply (append_beyond_capacity_is_atomic (mkState (small_engine 192) []) 1 100 50).
    vm_compute. reflexivity.
  - apply (append_beyond_capacity_is_atomic (mkState (small_engine 256) []) 1 100 50).
    vm_compute. reflexivity.
Defined.

Section Filling.

Context `{K : rpgpio_private} `{D : device}.

Lemma block_at_ext (m m' : gmap Z Z) (a : Z) :
  (forall k, a <= k < a + 32 -> m' !! k = m !! k) ->
  block_at m' a = block_at m a.
Proof.
  intros Hsame. unfold block_at. rewrite !Hsame by lia. reflexivity.
Qed.

Lemma add_delays_fill_blocks (fuel : nat) (delay_us : Z) (n : nat) :
  forall s : state DMAGPIO.t,
    DMAGPIO.__current_address (self s) + 32 * Z.of_nat n
      <= get_size (DMAGPIO._physmem (self s)) ->
    exists s',
      DMAGPIO.perform_all fuel (repeat (DMAGPIO.call_add_delay delay_us) n) s = Ok tt s' /\
      DMAGPIO.__current_address (self s') =
        DMAGPIO.__current_address (self s) + 32 * Z.of_nat n /\
      get_size (DMAGPIO._physmem (self s')) = get_size (DMAGPIO._physmem (self s)) /\
      (forall i, 0 <= i < Z.of_nat n ->
         block_at (cells (DMAGPIO._physmem (self s')))
                  (DMAGPIO.__current_address (self s) + 32 * i) =
           Some (delay_block (self s) delay_us
                   (DMAGPIO.__current_address (self s) + 32 * i))) /\
      (forall k, k < DMAGPIO.__current_address (self s) ->
         cells (DMAGPIO._physmem (self s')) !! k = cells (DMAGPIO._physmem (self s)) !! k).
Proof.
  induction n as [|n IH]; intros s Hfit.
  - exists s. split; [reflexivity|]. split; [cbn; lia|]. split; [reflexivity|].
    split; [intros i Hi; lia|reflexivity].
  - cbn [repeat DMAGPIO.perform_all DMAGPIO.perform]. unfold bind at 1.
    rewrite add_delay_ok by lia.
    match goal with |- context [DMAGPIO.perform_all _ _ ?s1] =>
      destruct (IH s1) as (s' & Hrun & Hcur & Hsize & Hblocks & Hframe) end.
    { cbn [self DMAGPIO.with_current_address DMAGPIO.with_physmem DMAGPIO._physmem
        DMAGPIO.__current_address cma_write get_size]. lia. }
    cbn [self DMAGPIO.with_current_address DMAGPIO.with_physmem DMAGPIO._physmem
      DMAGPIO.__current_address cma_write get_size cells] in Hcur, Hsize, Hblocks, Hframe.
    exists s'. split; [exact Hrun|]. split; [lia|]. split; [exact Hsize|]. split.
    + intros i Hi. destruct (Z.eq_dec i 0) as [->|Hi0].
      * etransitivity; [apply block_at_ext; intros k Hk; apply Hframe; lia|].
        erewrite (block_at_write_words _ _ _ 0); [|lia|reflexivity..].
        unfold delay_block. do 2 f_equal; lia.
      * specialize (Hblocks (i - 1) ltac:(lia)).
        replace (DMAGPIO.__current_address (self s) + 32 + 32 * (i - 1))
          with (DMAGPIO.__current_address (self s) + 32 * i) in Hblocks by lia.
        exact Hblocks.
    + intros k Hk. rewrite Hframe by lia. apply write_words_lookup_out. lia.
Qed.

(** C10. The capacity check is strict in both append operations: an
    append (at a cursor inside the buffer) whose new cursor equals the
    capacity returns with the cursor at the capacity and its blocks
    written in the last bytes of the buffer, the last block's next field
    being the bus address of the buffer's end and everything below the old
    cursor left as it was; [MemoryError] is raised exactly when the new
    cursor would be larger than the capacity. So when the free space is a
    whole number [n] of blocks, [n] single-block appends all return, write
    their [n] delay blocks up to the last byte and leave the cursor on the
    capacity. Where a block is given word for word, its masks and length
    word are 32-bit words. *)
Theorem append_to_exact_capacity
    (s : state DMAGPIO.t) (pins_mask length_us delay_us : Z) :
  let o := self s in
  let cur := DMAGPIO.__current_address o in
  let size := get_size (DMAGPIO._physmem o) in
  let bus := get_bus_address (DMAGPIO._physmem o) in
  (0 <= cur -> cur + 96 = size ->
     exists s', DMAGPIO.add_pulse pins_mask length_us s = Ok tt s' /\
       DMAGPIO.__current_address (self s') = size /\
       (exists b, block_at (cells (DMAGPIO._physmem (self s'))) (size - 32) = Some b /\
                  cb_next b = bus + size) /\
       (uint32 pins_mask -> uint32 (16 * length_us) ->
          block_at (cells (DMAGPIO._physmem (self s'))) (size - 96) =
            Some (level_block o (size - 96) pins_mask 0) /\
          block_at (cells (DMAGPIO._physmem (self s'))) (size - 64) =
            Some (paced_block o length_us (size - 64)) /\
          block_at (cells (DMAGPIO._physmem (self s'))) (size - 32) =
            Some (level_block o (size - 32) 0 pins_mask)) /\
       (forall k, k < cur ->
          cells (DMAGPIO._physmem (self s')) !! k = cells (DMAGPIO._physmem o) !! k)) /\
  (0 <= cur -> cur + 32 = size ->
     exists s', DMAGPIO.add_delay delay_us s = Ok tt s' /\
       DMAGPIO.__current_address (self s') = size /\
       (exists b, block_at (cells (DMAGPIO._physmem (self s'))) (size - 32) = Some b /\
                  cb_next b = bus + size) /\
       (uint32 (16 * delay_us) ->
          block_at (cells (DMAGPIO._physmem (self s'))) (size - 32) =
            Some (delay_block o delay_us (size - 32))) /\
       (forall k, k < cur ->
          cells (DMAGPIO._physmem (self s')) !! k = cells (DMAGPIO._physmem o) !! k)) /\
  (raises (DMAGPIO.add_pulse pins_mask length_us s) =
     Some (MemoryError "Out of allocated memory.") <-> cur + 96 > size) /\
  (raises (DMAGPIO.add_delay delay_us s) =
     Some (MemoryError "Out of allocated memory.") <-> cur + 32 > size) /\
  (forall fuel (n : nat),
     0 <= cur -> cur + 32 * Z.of_nat n = size ->
     exists s',
       DMAGPIO.perform_all fuel (repeat (DMAGPIO.call_add_delay delay_us) n) s = Ok tt s' /\
       DMAGPIO.__current_address (self s') = get_size (DMAGPIO._physmem (self s')) /\
       (forall i, 0 <= i < Z.of_nat n ->
          exists b, block_at (cells (DMAGPIO._physmem (self s'))) (cur + 32 * i) = Some b /\
                    cb_next b = bus + (cur + 32 * (i + 1))) /\
       (uint32 (16 * delay_us) ->
          forall i, 0 <= i < Z.of_nat n ->
            block_at (cells (DMAGPIO._physmem (self s'))) (cur + 32 * i) =
              Some (delay_block o delay_us (cur + 32 * i))) /\
       (forall k, k < cur ->
          cells (DMAGPIO._physmem (self s')) !! k = cells (DMAGPIO._physmem o) !! k)).
Proof.
  intros o cur size bus.
  split; [|split; [|split; [|split]]].
  - intros _ Heq.
    assert (Hb0 : forall m, block_at (write_words cur
              [ DMAGPIO._pulse_info o; cur + 96 + bus - 32 - 32 - 8;
                DMAGPIO._pulse_destination o; DMAGPIO._pulse_length o;
                DMAGPIO._pulse_stride o; cur + 96 + bus - 32 - 32; pins_mask; 0;
                DMAGPIO._delay_info o; 0; DMAGPIO._delay_destination o;
                16 * length_us;
                DMAGPIO._delay_stride o; cur + 96 + bus - 32; 0; 0;
                DMAGPIO._pulse_info o; cur + 96 + bus - 8;
                DMAGPIO._pulse_destination o; DMAGPIO._pulse_length o;
                DMAGPIO._pulse_stride o; cur + 96 + bus; 0; pins_mask ] m) (size - 96)
              = Some (level_block o (size - 96) pins_mask 0)).
    { intros m. erewrite (block_at_write_words _ _ _ 0); [|lia|reflexivity..].
      unfold level_block. fold bus. do 2 f_equal; lia. }
    assert (Hb1 : forall m, block_at (write_words cur
              [ DMAGPIO._pulse_info o; cur + 96 + bus - 32 - 32 - 8;
                DMAGPIO._pulse_destination o; DMAGPIO._pulse_length o;
                DMAGPIO._pulse_stride o; cur + 96 + bus - 32 - 32; pins_mask; 0;
                DMAGPIO._delay_info o; 0; DMAGPIO._delay_destination o;
                16 * length_us;
                DMAGPIO._delay_stride o; cur + 96 + bus - 32; 0; 0;
                DMAGPIO._pulse_info o; cur + 96 + bus - 8;
                DMAGPIO._pulse_destination o; DMAGPIO._pulse_length o;
                DMAGPIO._pulse_stride o; cur + 96 + bus; 0; pins_mask ] m) (size - 64)
              = Some (paced_block o length_us (size - 64))).
    { intros m. erewrite (block_at_write_words _ _ _ 1); [|lia|reflexivity..].
      unfold paced_block. fold bus. do 2 f_equal; lia. }
    assert (Hb2 : forall m, block_at (write_words cur
              [ DMAGPIO._pulse_info o; cur + 96 + bus - 32 - 32 - 8;
                DMAGPIO._pulse_destination o; DMAGPIO._pulse_length o;
                DMAGPIO._pulse_stride o; cur + 96 + bus - 32 - 32; pins_mask; 0;
                DMAGPIO._delay_info o; 0; DMAGPIO._delay_destination o;
                16 * length_us;
                DMAGPIO._delay_stride o; cur + 96 + bus - 32; 0; 0;
                DMAGPIO._pulse_info o; cur + 96 + bus - 8;
                DMAGPIO._pulse_destination o; DMAGPIO._pulse_length o;
                DMAGPIO._pulse_stride o; cur + 96 + bus; 0; pins_mask ] m) (size - 32)
              = Some (level_block o (size - 32) 0 pins_mask)).
    { intros m. erewrite (block_at_write_words _ _ _ 2); [|lia|reflexivity..].
      unfold level_block. fold bus. do 2 f_equal; lia. }
    eexists. split; [apply add_pulse_ok; fold o cur size; lia|].
    fold o cur bus. cbn [self DMAGPIO.with_current_address DMAGPIO.with_physmem
      DMAGPIO._physmem DMAGPIO.__current_address cma_write cells].
    split; [lia|]. split; [|split].
    + eexists. split; [apply Hb2|]. unfold level_block. cbn [cb_next]. fold bus. lia.
    + intros _ _. split; [apply Hb0|]. split; [apply Hb1|apply Hb2].
    + intros k Hk. apply write_words_lookup_out. lia.
  - intros _ Heq.
    assert (Hb : forall m, block_at (write_words cur
              [ DMAGPIO._delay_info o; bus + (cur + 32) - 8;
                DMAGPIO._delay_destination o; 16 * delay_us;
                DMAGPIO._delay_stride o; bus + (cur + 32); 0; 0 ] m) (size - 32)
              = Some (delay_block o delay_us (size - 32))).
    { intros m. erewrite (block_at_write_words _ _ _ 0); [|lia|reflexivity..].
      unfold delay_block. fold bus. do 2 f_equal; lia. }
    eexists. split; [apply add_delay_ok; fold o cur size; lia|].
    fold o cur bus. cbn [self DMAGPIO.with_current_address DMAGPIO.with_physmem
      DMAGPIO._physmem DMAGPIO.__current_address cma_write cells].
    split; [lia|]. split; [|split].
    + eexists. split; [apply Hb|]. unfold delay_block. cbn [cb_next]. fold bus. lia.
    + intros _. apply Hb.
    + intros k Hk. apply write_words_lookup_out. lia.
  - split.
    + intros Hraise. destruct (Z_le_gt_dec (cur + 96) size) as [Hle|Hgt]; [|exact Hgt].
      rewrite add_pulse_ok in Hraise by exact Hle. discriminate.
    + intros Hgt. now rewrite add_pulse_full.
  - split.
    + intros Hraise. destruct (Z_le_gt_dec (cur + 32) size) as [Hle|Hgt]; [|exact Hgt].
      rewrite add_delay_ok in Hraise by exact Hle. discriminate.
    + intros Hgt. now rewrite add_delay_full.
  - intros fuel n _ Hn.
    destruct (add_delays_fill_blocks fuel delay_us n s)
      as (s' & Hrun & Hcur & Hsize & Hblocks & Hframe).
    + fold o cur size. lia.
    + fold o cur in Hcur, Hblocks, Hframe. fold o size in Hsize.
      exists s'. split; [exact Hrun|]. split; [rewrite Hcur, Hsize; exact Hn|].
      split; [|split; [|exact Hframe]].
      * intros i Hi. eexists. split; [apply Hblocks; exact Hi|].
        unfold delay_block. cbn [cb_next]. fold bus. lia.
      * intros _ i Hi. apply Hblocks. exact Hi.
Qed.

End Filling.

Lemma append_to_exact_capacity_witness :
  (exists s', DMAGPIO.add_pulse 1 100 (mkState (small_engine 160) []) = Ok tt s' /\
              DMAGPIO.__current_address (self s') = 256 /\
              block_at (cells (DMAGPIO._physmem (self s'))) 224 =
                Some (level_block (small_engine 160) 224 0 1)) /\
  (exists s', DMAGPIO.add_delay 50 (mkState (small_engine 224) []) = Ok tt s' /\
              DMAGPIO.__current_address (self s') = 256 /\
              block_at (cells (DMAGPIO._physmem (self s'))) 224 =
                Some (delay_block (small_engine 224) 50 224)) /\
  (exists s',
     DMAGPIO.perform_all (K := bcm283x) (D := quiet_device) 0
       (repeat (DMAGPIO.call_add_delay 50) 8) (mkState (small_engine 0) []) = Ok tt s' /\
     DMAGPIO.__current_address (self s') = get_size (DMAGPIO._physmem (self s')) /\
     block_at (cells (DMAGPIO._physmem (self s'))) 224 =
       Some (delay_block (small_engine 0) 50 224)).
Proof.
  destruct (append_to_exact_capacity (K := bcm283x) (D := quiet_device)
              (mkState (small_engine 160) []) 1 100 50) as (Hpulse & _).
  destruct (append_to_exact_capacity (K := bcm283x) (D := quiet_device)
              (mkState (small_engine 224) []) 1 100 50) as (_ & Hdelay & _).
  destruct (append_to_exact_capacity (K := bcm283x) (D := quiet_device)
              (mkState (small_engine 0) []) 1 100 50) as (_ & _ & _ & _ & Hfill).
  split; [|split].
  - destruct Hpulse as (s' & Hrun & Hcur & _ & Hblocks & _);
      [vm_compute; discriminate|reflexivity|].
    exists s'. split; [exact Hrun|]. split; [exact Hcur|].
    apply Hblocks; unfold uint32; lia.
  - destruct Hdelay as (s' & Hrun & Hcur & _ & Hblock & _);
      [vm_compute; discriminate|reflexivity|].
    exists s'. split; [exact Hrun|]. split; [exact Hcur|].
    apply Hblock. unfold uint32. lia.
  - destruct (Hfill 0%nat 8%nat) as (s' & Hrun & Hcur & _ & Hblocks & _);
      [vm_compute; discriminate|reflexivity|].
    exists s'. split; [exact Hrun|]. split; [exact Hcur|].
    apply (Hblocks ltac:(unfold uint32; lia) 7). lia.
Defined.

(** ** Bit-level facts used by the register sequences *)

Lemma land_lor_same (a b : Z) : Z.land (Z.lor a b) b = b.
Proof.
  apply Z.bits_inj'. intros n _.
  rewrite Z.land_spec, Z.lor_spec.
  destruct (Z.testbit a n), (Z.testbit b n); reflexivity.
Qed.

Lemma land_lnot_same (a b : Z) : Z.land (Z.land a (Z.lnot b)) b = 0.
Proof.
  rewrite <- Z.land_assoc, (Z.land_comm (Z.lnot b) b), Z.land_lnot_diag.
  apply Z.land_0_r.
Qed.

Lemma land_lnot_keeps (a b : Z) (n : Z) :
  0 <= n -> Z.testbit b n = false ->
  Z.testbit (Z.land a (Z.lnot b)) n = Z.testbit a n.
Proof.
  intros Hn Hb. rewrite Z.land_spec, Z.lnot_spec, Hb by exact Hn.
  apply andb_true_r.
Qed.

Lemma shiftl_1_single_bit (k n : Z) :
  0 <= k -> Z.testbit (Z.shiftl 1 k) n = (k =? n).
Proof.
  intros Hk. rewrite Z.shiftl_1_l. now apply Z.pow2_bits_eqb.
Qed.

Lemma pull_bits_written (p c : Z) :
  0 <= c < 4 -> Z.land (Z.lor (Z.land p (Z.lnot 3)) c) 3 = c.
Proof.
  intros Hc. rewrite Z.land_lor_distr_l, land_lnot_same, Z.lor_0_l.
  assert (c = 0 \/ c = 1 \/ c = 2 \/ c = 3) as [->|[->|[->| ->]]] by lia; reflexivity.
Qed.

(** ** GPIO.init for the input modes *)

Section GpioProperties.

Context `{K : rpgpio_private} `{D : device}.

(** C5. For every pin number in [0, 2 ^ 53) (every GPIO line; the range
    in which the source's [int(pin / 10)] and [int(pin / 32)] are the exact
    quotients) and each of the three input modes, [init] returns after
    exactly this register traffic, in this order: load the pin's
    function-select register and store it back with the pin's 3-bit field
    cleared (all other bits kept); load the pull control register and store
    it with its low two bits equal to the pull code (2 up, 1 down, 0 none);
    store into the pin's bank clock register the word whose only set bit is
    the pin's; load the pull control register and store it with the low two
    bits cleared; store 0 into the clock register. *)
Theorem init_input_pull_protocol (s : state GPIO.t) (pin mode : Z) :
  0 <= pin < 2 ^ 53 ->
  mode = GPIO.MODE_INPUT_NOPULL \/ mode = GPIO.MODE_INPUT_PULLUP \/
  mode = GPIO.MODE_INPUT_PULLDOWN ->
  let g := GPIO._mem (self s) in
  let fsel := 4 * int_div pin 10 + GPIO_FSEL_OFFSET in
  let field := Z.shiftl 7 ((pin mod 10) * 3) in
  let clk := 4 * int_div pin 32 + GPIO_PULLUPDNCLK_OFFSET in
  let h0 := trace s in
  let v := respond h0 g fsel in
  let v' := Z.land v (Z.lnot field) in
  let h2 := h0 ++ [ev_read_int g fsel v; ev_write_int g fsel v'] in
  let p := respond h2 g GPIO_PULLUPDN_OFFSET in
  let p' := Z.lor (Z.land p (Z.lnot 3)) (pull_state_bits mode) in
  let strobe := Z.shiftl 1 (pin mod 32) in
  let h5 := h2 ++ [ev_read_int g GPIO_PULLUPDN_OFFSET p;
                   ev_write_int g GPIO_PULLUPDN_OFFSET p';
                   ev_write_int g clk strobe] in
  let q := respond h5 g GPIO_PULLUPDN_OFFSET in
  let q' := Z.land q (Z.lnot 3) in
  GPIO.init pin mode s =
    Ok tt (mkState (self s)
             (h5 ++ [ev_read_int g GPIO_PULLUPDN_OFFSET q;
                     ev_write_int g GPIO_PULLUPDN_OFFSET q';
                     ev_write_int g clk 0])) /\
  Z.land v' field = 0 /\
  (forall n, 0 <= n -> Z.testbit field n = false -> Z.testbit v' n = Z.testbit v n) /\
  Z.land p' 3 = pull_state_bits mode /\
  (forall n, 0 <= n -> Z.testbit 3 n = false -> Z.testbit p' n = Z.testbit p n) /\
  (forall n, Z.testbit strobe n = (pin mod 32 =? n)) /\
  Z.land q' 3 = 0.
Proof.
  intros _ Hmode g fsel field clk h0 v v' h2 p p' strobe h5 q q'.
  split; [|repeat split].
  - subst g fsel field clk h0 v v' h2 p p' strobe h5 q q'.
    unfold GPIO.init, GPIO._pullupdn, bind, get_self, read_int, write_int, emit,
      pull_state_bits.
    destruct Hmode as [->|[->| ->]]; cbn -[Z.mul Z.add Z.shiftl Z.land Z.lnot Z.lor Z.modulo];
      rewrite <- !app_assoc; cbn [app]; rewrite ?Z.lor_0_r; reflexivity.
  - apply land_lnot_same.
  - intros n Hn Hfield. now apply land_lnot_keeps.
  - apply pull_bits_written. unfold pull_state_bits.
    destruct (mode =? GPIO.MODE_INPUT_PULLUP); [lia|].
    destruct (mode =? GPIO.MODE_INPUT_PULLDOWN); lia.
  - intros n Hn H3. unfold p'. rewrite Z.lor_spec, land_lnot_keeps by assumption.
    assert (Hc : Z.testbit (pull_state_bits mode) n = false).
    { assert (Hland : Z.land (pull_state_bits mode) 3 = pull_state_bits mode).
      { unfold pull_state_bits.
        destruct (mode =? GPIO.MODE_INPUT_PULLUP); [reflexivity|].
        destruct (mode =? GPIO.MODE_INPUT_PULLDOWN); reflexivity. }
      rewrite <- Hland, Z.land_spec, H3. apply andb_false_r. }
    rewrite Hc. apply orb_false_r.
  - intros n. apply shiftl_1_single_bit. apply Z.mod_pos_bound. lia.
  - apply land_lnot_same.
Qed.

End GpioProperties.

Lemma init_input_pull_protocol_witness :
  GPIO.init (K := bcm283x) (D := quiet_device) 21 GPIO.MODE_INPUT_PULLUP
    (mkState (GPIO.__init__ (K := bcm283x)) []) =
  Ok tt (mkState (GPIO.__init__ (K := bcm283x))
    (let g := {| phys_address := 0x3F200000 |} in
     [ev_read_int g 8 0; ev_write_int g 8 0;
      ev_read_int g 0x94 0; ev_write_int g 0x94 2; ev_write_int g 0x98 (Z.shiftl 1 21);
      ev_read_int g 0x94 0; ev_write_int g 0x94 0; ev_write_int g 0x98 0])).
Proof.
  apply (init_input_pull_protocol (K := bcm283x) (D := quiet_device)
           (mkState (GPIO.__init__ (K := bcm283x)) []) 21 GPIO.MODE_INPUT_PULLUP).
  - lia.
  - right. left. reflexivity.
Defined.

(** ** Methods that only talk to registers *)

Create HintDb frame.

Lemma register_only_ret {O A} (a : A) : register_only (O := O) (ret a).
Proof. intros s. split; reflexivity. Qed.

Lemma register_only_get_self {O} : register_only (O := O) get_self.
Proof. intros s. split; reflexivity. Qed.

Lemma register_only_emit {O} (e : event) : register_only (O := O) (emit e).
Proof. intros s. split; reflexivity. Qed.

Lemma register_only_write_int {O} w a v : register_only (O := O) (write_int w a v).
Proof. apply register_only_emit. Qed.

Lemma register_only_time_sleep {O} us : register_only (O := O) (time_sleep us).
Proof. apply register_only_emit. Qed.

Lemma register_only_read_int `{D : device} {O} w a : register_only (O := O) (read_int w a).
Proof. intros s. split; reflexivity. Qed.

Lemma register_only_bind {O A B} (m : M O A) (k : A -> M O B) :
  register_only m -> (forall a, register_only (k a)) -> register_only (bind m k).
Proof.
  intros Hm Hk s. unfold bind. destruct (Hm s) as [Hself Hraise].
  destruct (m s) as [a s1|e s1|s1]; cbn in *.
  - destruct (Hk a s1) as [Hself' Hraise']. split; [congruence|assumption].
  - discriminate.
  - split; [assumption|reflexivity].
Qed.

Lemma register_only_if {O A} (b : bool) (m1 m2 : M O A) :
  register_only m1 -> register_only m2 -> register_only (if b then m1 else m2).
Proof. destruct b; auto. Qed.

#[local] Hint Resolve register_only_ret register_only_get_self register_only_emit
  register_only_write_int register_only_time_sleep register_only_read_int
  register_only_bind register_only_if : frame.

Lemma never_blocks_ret {O A} (a : A) : never_blocks (O := O) (ret a).
Proof. intros s. reflexivity. Qed.

Lemma never_blocks_raise {O A} e : never_blocks (O := O) (A := A) (raise e).
Proof. intros s. reflexivity. Qed.

Lemma never_blocks_get_self {O} : never_blocks (O := O) get_self.
Proof. intros s. reflexivity. Qed.

Lemma never_blocks_emit {O} (e : event) : never_blocks (O := O) (emit e).
Proof. intros s. reflexivity. Qed.

Lemma never_blocks_write_int {O} w a v : never_blocks (O := O) (write_int w a v).
Proof. apply never_blocks_emit. Qed.

Lemma never_blocks_logging_info {O} a : never_blocks (O := O) (logging_info a).
Proof. apply never_blocks_emit. Qed.

Lemma never_blocks_read_int `{D : device} {O} w a : never_blocks (O := O) (read_int w a).
Proof. intros s. reflexivity. Qed.

Lemma never_blocks_physmem_write a data : never_blocks (DMAGPIO.physmem_write a data).
Proof. intros s. reflexivity. Qed.

Lemma never_blocks_physmem_write_int a v : never_blocks (DMAGPIO.physmem_write_int a v).
Proof. intros s. reflexivity. Qed.

Lemma never_blocks_set_current_address a : never_blocks (DMAGPIO.set_current_address a).
Proof. intros s. reflexivity. Qed.

Lemma never_blocks_bind {O A B} (m : M O A) (k : A -> M O B) :
  never_blocks m -> (forall a, never_blocks (k a)) -> never_blocks (bind m k).
Proof.
  intros Hm Hk s. unfold bind. specialize (Hm s).
  destruct (m s) as [a s1|e s1|s1]; cbn in *; [apply Hk|reflexivity|discriminate].
Qed.

Lemma never_blocks_if {O A} (b : bool) (m1 m2 : M O A) :
  never_blocks m1 -> never_blocks m2 -> never_blocks (if b then m1 else m2).
Proof. destruct b; auto. Qed.

#[local] Hint Resolve never_blocks_ret never_blocks_raise never_blocks_get_self
  never_blocks_emit never_blocks_write_int never_blocks_logging_info
  never_blocks_read_int never_blocks_physmem_write never_blocks_physmem_write_int
  never_blocks_set_current_address never_blocks_bind never_blocks_if : frame.

Section EngineRegisters.

Context `{K : rpgpio_private} `{D : device}.

Lemma register_only_wait_not_busy (fuel : nat) :
  register_only (DMAGPIO.wait_not_busy fuel).
Proof.
  induction fuel as [|fuel IH]; cbn [DMAGPIO.wait_not_busy].
  - intros s. split; reflexivity.
  - apply register_only_bind; [auto with frame|]. intros o.
    apply register_only_bind; [auto with frame|]. intros v.
    apply register_only_if; auto with frame.
Qed.

Lemma register_only_run_stream (fuel : nat) :
  register_only (DMAGPIO.run_stream fuel).
Proof.
  unfold DMAGPIO.run_stream. cbv zeta.
  pose proof (register_only_wait_not_busy fuel).
  auto 30 with frame.
Qed.

Lemma register_only_stop : register_only DMAGPIO.stop.
Proof. unfold DMAGPIO.stop. cbv zeta. auto 20 with frame. Qed.

Lemma register_only_is_active : register_only DMAGPIO.is_active.
Proof. unfold DMAGPIO.is_active. cbv zeta. auto 20 with frame. Qed.

End EngineRegisters.

Section EngineRun.

Context `{K : rpgpio_private} `{D : device}.

(** C6. [stop] returns on every device after exactly five register
    accesses and no sleep: it stores 0 into the PWM control register, loads
    the status register of DMA channel 5 once, and stores that word three
    times in a row, first with the abort bits set, then also with the
    active bits cleared, then also with the reset bits set. The object
    (cursor and buffer) is untouched. *)
Theorem stop_sequence (s : state DMAGPIO.t) :
  let o := self s in
  let addr := 0x100 * DMAGPIO._DMA_CHANNEL in
  let pwm_off := ev_write_int (DMAGPIO._pwm o) PWM_CTL 0 in
  let cs := respond (trace s ++ [pwm_off]) (DMAGPIO._dma o) addr in
  let cs1 := Z.lor cs DMA_CS_ABORT in
  let cs2 := Z.land cs1 (Z.lnot DMA_CS_ACTIVE) in
  let cs3 := Z.lor cs2 DMA_CS_RESET in
  let accesses :=
    [ pwm_off;
      ev_read_int (DMAGPIO._dma o) addr cs;
      ev_write_int (DMAGPIO._dma o) addr cs1;
      ev_write_int (DMAGPIO._dma o) addr cs2;
      ev_write_int (DMAGPIO._dma o) addr cs3 ] in
  DMAGPIO.stop s = Ok tt (mkState o (trace s ++ accesses)) /\
  Z.land cs1 DMA_CS_ABORT = DMA_CS_ABORT /\
  Z.land cs2 DMA_CS_ACTIVE = 0 /\
  Z.land cs3 DMA_CS_RESET = DMA_CS_RESET /\
  List.filter is_hw_read accesses = [ev_read_int (DMAGPIO._dma o) addr cs] /\
  List.filter is_sleep accesses = [].
Proof.
  intros o addr pwm_off cs cs1 cs2 cs3 accesses. repeat split.
  - subst o addr pwm_off cs cs1 cs2 cs3 accesses.
    unfold DMAGPIO.stop, bind, get_self, read_int, write_int, emit.
    cbn [self trace]. rewrite <- !app_assoc. reflexivity.
  - apply land_lor_same.
  - apply land_lnot_same.
  - apply land_lor_same.
Qed.

Lemma run_empty (fuel : nat) (loop : bool) (s : state DMAGPIO.t) :
  DMAGPIO.__current_address (self s) = 0 ->
  DMAGPIO.run fuel loop s = Raise (RuntimeError "Nothing was added.") s.
Proof.
  intros H0. unfold DMAGPIO.run, bind, get_self, raise. cbn beta iota.
  rewrite H0. reflexivity.
Qed.

Lemma run_loop (fuel : nat) (s : state DMAGPIO.t) :
  DMAGPIO.__current_address (self s) <> 0 ->
  DMAGPIO.run fuel true s =
    DMAGPIO.run_stream fuel
      (mkState (DMAGPIO.with_physmem
                  (cma_write_int (DMAGPIO.__current_address (self s) + 20 - 32)
                                 (get_bus_address (DMAGPIO._physmem (self s)))
                                 (DMAGPIO._physmem (self s)))
                  (self s))
               (trace s)).
Proof.
  intros Hne. unfold DMAGPIO.run, bind at 1, get_self. cbn beta iota.
  apply Z.eqb_neq in Hne. rewrite Hne. reflexivity.
Qed.

Lemma finalize_stream_eq (s : state DMAGPIO.t) :
  DMAGPIO.finalize_stream s =
    Ok tt (mkState (DMAGPIO.with_physmem
                      (cma_write_int (DMAGPIO.__current_address (self s) + 20 - 32) 0
                                     (DMAGPIO._physmem (self s)))
                      (self s))
                   (trace s ++ [ev_log_info (DMAGPIO.__current_address (self s))])).
Proof. reflexivity. Qed.

Lemma run_once (fuel : nat) (s : state DMAGPIO.t) :
  DMAGPIO.__current_address (self s) <> 0 ->
  DMAGPIO.run fuel false s =
    (DMAGPIO.finalize_stream ;; DMAGPIO.run_stream fuel) s.
Proof.
  intros Hne. unfold DMAGPIO.run, bind at 1, get_self. cbn beta iota.
  apply Z.eqb_neq in Hne. rewrite Hne. reflexivity.
Qed.

Lemma run_never_raises_nonempty (fuel : nat) (loop : bool) (s : state DMAGPIO.t) :
  DMAGPIO.__current_address (self s) <> 0 ->
  raises (DMAGPIO.run fuel loop s) = None.
Proof.
  intros Hne. destruct loop.
  - rewrite run_loop by exact Hne. apply register_only_run_stream.
  - rewrite run_once by exact Hne. unfold bind. rewrite finalize_stream_eq.
    apply register_only_run_stream.
Qed.

(** C3. [run] raises [RuntimeError] (the spec's StateError) exactly when
    the cursor is at the buffer start, and then it raises from the very
    state it was called in: no register access is added to the history and
    the buffer is the one before the call. The cursor is at the start right
    after construction and right after [clear], and it is not at the start
    after an append that returned. *)
Theorem run_empty_chain_raises (fuel : nat) (loop : bool) (s : state DMAGPIO.t) :
  (DMAGPIO.__current_address (self s) = 0 ->
     DMAGPIO.run fuel loop s = Raise (RuntimeError "Nothing was added.") s) /\
  (raises (DMAGPIO.run fuel loop s) = Some (RuntimeError "Nothing was added.") <->
     DMAGPIO.__current_address (self s) = 0) /\
  (forall contents bus_address h,
     DMAGPIO.__current_address
       (self (mkState (DMAGPIO.__init__ contents bus_address) h)) = 0) /\
  DMAGPIO.__current_address (self (state_of (DMAGPIO.clear s))) = 0 /\
  (forall pins_mask length_us s',
     0 <= DMAGPIO.__current_address (self s) ->
     DMAGPIO.add_pulse pins_mask length_us s = Ok tt s' ->
     DMAGPIO.__current_address (self s') <> 0) /\
  (forall delay_us s',
     0 <= DMAGPIO.__current_address (self s) ->
     DMAGPIO.add_delay delay_us s = Ok tt s' ->
     DMAGPIO.__current_address (self s') <> 0).
Proof.
  split; [apply run_empty|]. split; [split|].
  - intros Hraise.
    destruct (Z.eq_dec (DMAGPIO.__current_address (self s)) 0) as [H0|Hne]; [exact H0|].
    rewrite run_never_raises_nonempty in Hraise by exact Hne. discriminate.
  - intros H0. now rewrite run_empty.
  - split; [reflexivity|]. split; [reflexivity|]. split.
    + intros pins_mask length_us s' Hpos Hrun.
      destruct (Z_le_gt_dec (DMAGPIO.__current_address (self s) + 96)
                            (get_size (DMAGPIO._physmem (self s)))) as [Hle|Hgt].
      * rewrite add_pulse_ok in Hrun by exact Hle. injection Hrun as <-. cbn. lia.
      * rewrite add_pulse_full in Hrun by exact Hgt. discriminate.
    + intros delay_us s' Hpos Hrun.
      destruct (Z_le_gt_dec (DMAGPIO.__current_address (self s) + 32)
                            (get_size (DMAGPIO._physmem (self s)))) as [Hle|Hgt].
      * rewrite add_delay_ok in Hrun by exact Hle. injection Hrun as <-. cbn. lia.
      * rewrite add_delay_full in Hrun by exact Hgt. discriminate.
Qed.

End EngineRun.

Lemma run_empty_chain_raises_witness :
  DMAGPIO.run (K := bcm283x) (D := quiet_device) 1 true
    (mkState (DMAGPIO.__init__ (K := bcm283x) ∅ 0xC0000000) []) =
  Raise (RuntimeError "Nothing was added.")
    (mkState (DMAGPIO.__init__ (K := bcm283x) ∅ 0xC0000000) []).
Proof.
  apply (run_empty_chain_raises (K := bcm283x) (D := quiet_device) 1 true
           (mkState (DMAGPIO.__init__ (K := bcm283x) ∅ 0xC0000000) [])).
  reflexivity.
Defined.

(** ** The busy-wait of run_stream *)

Section BusyWait.

Context `{K : rpgpio_private} `{D : device}.

Lemma polling_history_sleeps clock (n : nat) : forall h,
  List.filter is_sleep (polling_history clock h n) =
    List.filter is_sleep h ++ repeat (ev_sleep 10) n.
Proof.
  induction n as [|n IH]; intros h; cbn [polling_history repeat].
  - now rewrite app_nil_r.
  - rewrite IH, List.filter_app, <- app_assoc. reflexivity.
Qed.

Lemma polling_history_writes clock (n : nat) : forall h,
  hw_writes (polling_history clock h n) = hw_writes h.
Proof.
  induction n as [|n IH]; intros h; cbn [polling_history]; [reflexivity|].
  rewrite IH. unfold hw_writes. rewrite List.filter_app. cbn. apply app_nil_r.
Qed.

Lemma wait_not_busy_step (fuel : nat) (o : DMAGPIO.t) (h : list event) :
  DMAGPIO.wait_not_busy (S fuel) (mkState o h) =
    let v := respond h (DMAGPIO._clock o) CM_CNTL in
    if busy v then
      DMAGPIO.wait_not_busy fuel
        (mkState o (h ++ [ev_read_int (DMAGPIO._clock o) CM_CNTL v; ev_sleep 10]))
    else Ok tt (mkState o (h ++ [ev_read_int (DMAGPIO._clock o) CM_CNTL v])).
Proof.
  cbn [DMAGPIO.wait_not_busy]. unfold bind, get_self, read_int, time_sleep, emit, busy.
  cbn [self trace].
  destruct (negb (Z.land (respond h (DMAGPIO._clock o) CM_CNTL) (Z.shiftl 1 7) =? 0)).
  - cbn [self trace]. now rewrite <- app_assoc.
  - reflexivity.
Qed.

Lemma wait_not_busy_still_busy (fuel : nat) (o : DMAGPIO.t) : forall h,
  (forall i, (i < fuel)%nat ->
     busy (respond (polling_history (DMAGPIO._clock o) h i) (DMAGPIO._clock o) CM_CNTL)
       = true) ->
  DMAGPIO.wait_not_busy fuel (mkState o h) =
    OutOfFuel (mkState o (polling_history (DMAGPIO._clock o) h fuel)).
Proof.
  induction fuel as [|fuel IH]; intros h Hbusy; [reflexivity|].
  rewrite wait_not_busy_step. cbv zeta.
  pose proof (Hbusy 0%nat ltac:(lia)) as H0. cbn [polling_history] in H0. rewrite H0.
  rewrite IH; [reflexivity|].
  intros i Hi. apply (Hbusy (S i)). lia.
Qed.

Lemma wait_not_busy_released (k : nat) (o : DMAGPIO.t) : forall fuel h,
  (k < fuel)%nat ->
  (forall i, (i < k)%nat ->
     busy (respond (polling_history (DMAGPIO._clock o) h i) (DMAGPIO._clock o) CM_CNTL)
       = true) ->
  busy (respond (polling_history (DMAGPIO._clock o) h k) (DMAGPIO._clock o) CM_CNTL)
    = false ->
  DMAGPIO.wait_not_busy fuel (mkState o h) =
    Ok tt (mkState o
      (polling_history (DMAGPIO._clock o) h k ++
       [ev_read_int (DMAGPIO._clock o) CM_CNTL
          (respond (polling_history (DMAGPIO._clock o) h k) (DMAGPIO._clock o) CM_CNTL)])).
Proof.
  induction k as [|k IH]; intros fuel h Hfuel Hbusy Hfree;
    (destruct fuel as [|fuel]; [lia|]); rewrite wait_not_busy_step; cbv zeta.
  - cbn [polling_history] in *. rewrite Hfree. reflexivity.
  - pose proof (Hbusy 0%nat ltac:(lia)) as H0. cbn [polling_history] in H0. rewrite H0.
    apply IH; [lia| |exact Hfree].
    intros i Hi. apply (Hbusy (S i)). lia.
Qed.

Lemma run_stream_eq (fuel : nat) (o : DMAGPIO.t) (h : list event) :
  DMAGPIO.run_stream fuel (mkState o h) =
    match DMAGPIO.wait_not_busy fuel (mkState o (h ++ before_wait o)) with
    | Ok _ s2 => Ok tt (mkState (self s2) (trace s2 ++ after_wait o (trace s2)))
    | Raise e s2 => Raise e s2
    | OutOfFuel s2 => OutOfFuel s2
    end.
Proof.
  unfold DMAGPIO.run_stream, before_wait, after_wait.
  unfold bind at 1 2 3 4. unfold get_self, write_int, emit. cbn [self trace].
  rewrite <- app_assoc. cbn [app].
  destruct (DMAGPIO.wait_not_busy fuel _) as [[] s2|e s2|s2]; try reflexivity.
  unfold bind, get_self, read_int, write_int, emit. cbn [self trace].
  rewrite <- !app_assoc. cbn [app]. reflexivity.
Qed.

End BusyWait.

Section Blocking.

Context `{K : rpgpio_private} `{D : device}.

Lemma never_blocks_perform_other (fuel : nat) (c : DMAGPIO.call) :
  match c with
  | DMAGPIO.call_run _ | DMAGPIO.call_run_stream => True
  | _ => never_blocks (DMAGPIO.perform fuel c)
  end.
Proof.
  destruct c; cbn [DMAGPIO.perform]; try exact I;
    unfold DMAGPIO.add_pulse, DMAGPIO.add_delay, DMAGPIO.finalize_stream,
      DMAGPIO.stop, DMAGPIO.is_active, DMAGPIO.clear; cbv zeta;
    auto 30 with frame.
Qed.

Lemma never_blocks_gpio (pin mode : Z) :
  never_blocks (GPIO.init pin mode) /\ never_blocks (GPIO.set pin) /\
  never_blocks (GPIO.clear pin) /\ never_blocks (GPIO.read pin).
Proof.
  unfold GPIO.init, GPIO._pullupdn, GPIO.set, GPIO.clear, GPIO.read. cbv zeta.
  repeat split; auto 30 with frame.
Qed.

(** C9 (amended). No call other than [run] and [run_stream] can be left
    waiting: each returns or raises whatever the fuel, and so do the GPIO
    methods. The loop of [run_stream] loads [CM_CNTL] and, while bit 7 of
    the answer is set, sleeps 10 microseconds and loads again; the code has
    no poll limit. If the clock answers busy [k] times and then not busy,
    [run_stream] returns as soon as the fuel exceeds [k], after exactly [k]
    sleeps of 10 microseconds, and goes on with the register programming;
    if the clock answers busy to every poll the fuel pays for, the call is
    still inside the loop when the fuel is gone, whatever the fuel. *)
Theorem busy_wait_ends_when_clock_not_busy (fuel : nat) (s : state DMAGPIO.t) :
  let o := self s in
  let clock := DMAGPIO._clock o in
  let h1 := trace s ++ before_wait o in
  let answer i := respond (polling_history clock h1 i) clock CM_CNTL in
  (forall c,
     match c with
     | DMAGPIO.call_run _ | DMAGPIO.call_run_stream => True
     | _ => out_of_fuel (DMAGPIO.perform fuel c s) = false
     end) /\
  (forall (g : state GPIO.t) pin mode,
     out_of_fuel (GPIO.init pin mode g) = false /\
     out_of_fuel (GPIO.set pin g) = false /\
     out_of_fuel (GPIO.clear pin g) = false /\
     out_of_fuel (GPIO.read pin g) = false) /\
  (forall k : nat,
     (forall i, (i < k)%nat -> busy (answer i) = true) ->
     busy (answer k) = false ->
     (k < fuel)%nat ->
     let h2 := polling_history clock h1 k ++ [ev_read_int clock CM_CNTL (answer k)] in
     DMAGPIO.run_stream fuel s = Ok tt (mkState o (h2 ++ after_wait o h2)) /\
     List.filter is_sleep h2 = List.filter is_sleep (trace s) ++ repeat (ev_sleep 10) k) /\
  ((forall i, (i < fuel)%nat -> busy (answer i) = true) ->
     DMAGPIO.run_stream fuel s = OutOfFuel (mkState o (polling_history clock h1 fuel))).
Proof.
  intros o clock h1 answer. split; [|split; [|split]].
  - intros c. pose proof (never_blocks_perform_other fuel c) as Hc.
    destruct c; try exact I; apply Hc.
  - intros g pin mode. destruct (never_blocks_gpio pin mode) as (Hi & Hs & Hc & Hr).
    split; [apply Hi|split; [apply Hs|split; [apply Hc|apply Hr]]].
  - intros k Hbusy Hfree Hfuel h2. split.
    + destruct s as [o' h]. cbn [self trace] in *. rewrite run_stream_eq.
      subst o. fold h1 clock.
      rewrite (wait_not_busy_released k o' fuel h1 Hfuel Hbusy Hfree).
      reflexivity.
    + unfold h2. rewrite List.filter_app, polling_history_sleeps. cbn [List.filter is_sleep].
      rewrite app_nil_r. unfold h1. rewrite List.filter_app. cbn. now rewrite app_nil_r.
  - intros Hbusy. destruct s as [o' h]. cbn [self trace] in *. rewrite run_stream_eq.
    subst o. fold h1 clock.
    now rewrite (wait_not_busy_still_busy fuel o' h1 Hbusy).
Qed.

End Blocking.

Lemma busy_wait_ends_when_clock_not_busy_witness :
  List.filter is_sleep
    (trace (state_of (DMAGPIO.run_stream (K := bcm283x) (D := busy_for 3) 4
                        (mkState (small_engine 32) [])))) =
    [ev_sleep 10; ev_sleep 10; ev_sleep 10] /\
  returns (DMAGPIO.run_stream (K := bcm283x) (D := busy_for 3) 4
             (mkState (small_engine 32) [])) = true.
Proof.
  destruct (busy_wait_ends_when_clock_not_busy (K := bcm283x) (D := busy_for 3) 4
              (mkState (small_engine 32) [])) as (_ & _ & Hdone & _).
  destruct (Hdone 3%nat) as (Hrun & Hsleeps).
  - intros i Hi. destruct i as [|[|[|i]]]; [reflexivity..|lia].
  - reflexivity.
  - lia.
  - rewrite Hrun. split; reflexivity.
Defined.

(** With a clock that never reports not-busy, [run] does not return for
    any number of polls: the wait has no bound of its own. *)
Lemma busy_wait_unbounded_on_stuck_clock :
  ~ exists fuel,
      returns (DMAGPIO.run (K := bcm283x) (D := stuck_busy_device) fuel false
                 (mkState (small_engine 32) [])) = true.
Proof.
  intros [fuel Hret].
  rewrite (run_once (K := bcm283x) (D := stuck_busy_device)) in Hret
    by (vm_compute; discriminate).
  unfold bind in Hret. rewrite finalize_stream_eq in Hret.
  rewrite (run_stream_eq (K := bcm283x) (D := stuck_busy_device)) in Hret.
  rewrite (wait_not_busy_still_busy (K := bcm283x) (D := stuck_busy_device)) in Hret.
  - discriminate.
  - intros i _. reflexivity.
Qed.

(** ** The cursor across calls *)

Section Cursor.

Context `{K : rpgpio_private} `{D : device}.

Lemma run_keeps_cursor (fuel : nat) (loop : bool) (s : state DMAGPIO.t) :
  let s' := state_of (DMAGPIO.run fuel loop s) in
  DMAGPIO.__current_address (self s') = DMAGPIO.__current_address (self s) /\
  get_size (DMAGPIO._physmem (self s')) = get_size (DMAGPIO._physmem (self s)) /\
  get_bus_address (DMAGPIO._physmem (self s')) = get_bus_address (DMAGPIO._physmem (self s)).
Proof.
  cbv zeta.
  destruct (Z.eq_dec (DMAGPIO.__current_address (self s)) 0) as [H0|Hne].
  - rewrite run_empty by exact H0. repeat split.
  - destruct loop.
    + rewrite run_loop by exact Hne.
      match goal with |- context [DMAGPIO.run_stream fuel ?s1] =>
        destruct (register_only_run_stream fuel s1) as [-> _] end.
      repeat split.
    + rewrite run_once by exact Hne. unfold bind. rewrite finalize_stream_eq.
      match goal with |- context [DMAGPIO.run_stream fuel ?s1] =>
        destruct (register_only_run_stream fuel s1) as [-> _] end.
      repeat split.
Qed.

(** What one call does to cursor and capacity, however it ends. *)
Lemma perform_cursor (fuel : nat) (c : DMAGPIO.call) (s : state DMAGPIO.t) :
  let cur := DMAGPIO.__current_address (self s) in
  let size := get_size (DMAGPIO._physmem (self s)) in
  let s' := state_of (DMAGPIO.perform fuel c s) in
  get_size (DMAGPIO._physmem (self s')) = size /\
  match c with
  | DMAGPIO.call_clear => DMAGPIO.__current_address (self s') = 0
  | DMAGPIO.call_add_pulse _ _ =>
      (cur + 96 <= size /\ DMAGPIO.__current_address (self s') = cur + 96) \/
      (cur + 96 > size /\ DMAGPIO.__current_address (self s') = cur)
  | DMAGPIO.call_add_delay _ =>
      (cur + 32 <= size /\ DMAGPIO.__current_address (self s') = cur + 32) \/
      (cur + 32 > size /\ DMAGPIO.__current_address (self s') = cur)
  | _ => DMAGPIO.__current_address (self s') = cur
  end.
Proof.
  intros cur size. destruct c; cbn [DMAGPIO.perform]; cbv zeta.
  - destruct (Z_le_gt_dec (cur + 96) size) as [Hle|Hgt].
    + rewrite add_pulse_ok by exact Hle. split; [reflexivity|]. left. now split.
    + rewrite add_pulse_full by exact Hgt. split; [reflexivity|]. right. now split.
  - destruct (Z_le_gt_dec (cur + 32) size) as [Hle|Hgt].
    + rewrite add_delay_ok by exact Hle. split; [reflexivity|]. left. now split.
    + rewrite add_delay_full by exact Hgt. split; [reflexivity|]. right. now split.
  - rewrite finalize_stream_eq. split; reflexivity.
  - destruct (register_only_run_stream fuel s) as [-> _]. split; reflexivity.
  - destruct (run_keeps_cursor fuel loop s) as (Hcur & Hsize & _). split; assumption.
  - destruct (register_only_stop s) as [-> _]. split; reflexivity.
  - assert (Hro : register_only (DMAGPIO.is_active ;; ret tt))
      by (apply register_only_bind; [apply register_only_is_active|auto with frame]).
    destruct (Hro s) as [-> _]. split; reflexivity.
  - split; reflexivity.
Qed.

Lemma attempt_all_cons (fuel : nat) (c : DMAGPIO.call) (cs : list DMAGPIO.call)
      (s : state DMAGPIO.t) :
  state_of (DMAGPIO.attempt_all fuel (c :: cs) s) =
    if out_of_fuel (DMAGPIO.perform fuel c s)
    then state_of (DMAGPIO.perform fuel c s)
    else state_of (DMAGPIO.attempt_all fuel cs (state_of (DMAGPIO.perform fuel c s))).
Proof.
  cbn [DMAGPIO.attempt_all]. unfold bind, DMAGPIO.try_except.
  destruct (DMAGPIO.perform fuel c s); reflexivity.
Qed.

(** The cursor of an engine that came out of the constructor is always a
    whole number of blocks. *)
Lemma cursor_blocks_perform (fuel : nat) (c : DMAGPIO.call) (s : state DMAGPIO.t) :
  (exists k, 0 <= k /\ DMAGPIO.__current_address (self s) = 32 * k) ->
  exists k, 0 <= k /\
    DMAGPIO.__current_address (self (state_of (DMAGPIO.perform fuel c s))) = 32 * k.
Proof.
  intros (k & Hk & Hcur).
  pose proof (perform_cursor fuel c s) as [_ Hc]. cbv zeta in Hc.
  destruct c.
  - destruct Hc as [[_ Hc]|[_ Hc]]; [exists (k + 3)|exists k]; split; lia.
  - destruct Hc as [[_ Hc]|[_ Hc]]; [exists (k + 1)|exists k]; split; lia.
  - exists k. split; lia.
  - exists k. split; lia.
  - exists k. split; lia.
  - exists k. split; lia.
  - exists k. split; lia.
  - exists 0. split; lia.
Qed.

Lemma cursor_blocks_attempt_all (fuel : nat) (cs : list DMAGPIO.call) :
  forall s : state DMAGPIO.t,
    (exists k, 0 <= k /\ DMAGPIO.__current_address (self s) = 32 * k) ->
    exists k, 0 <= k /\
      DMAGPIO.__current_address (self (state_of (DMAGPIO.attempt_all fuel cs s))) = 32 * k.
Proof.
  induction cs as [|c cs IH]; intros s Hs; [exact Hs|].
  rewrite attempt_all_cons.
  pose proof (cursor_blocks_perform fuel c s Hs) as Hc.
  destruct (out_of_fuel (DMAGPIO.perform fuel c s)); [exact Hc|now apply IH].
Qed.

(** C8. Starting from a cursor within a non-negative capacity, as after
    construction, every sequence of calls (appends, clears and any other
    method, the caller going on after an exception) ends with the cursor
    within the capacity. A single call other than [clear] never lowers the
    cursor, whether it returns or raises; [clear] puts it at 0. *)
Theorem cursor_within_capacity (fuel : nat) (cs : list DMAGPIO.call)
    (s : state DMAGPIO.t) :
  (0 <= get_size (DMAGPIO._physmem (self s)) ->
   DMAGPIO.__current_address (self s) <= get_size (DMAGPIO._physmem (self s)) ->
   let s' := state_of (DMAGPIO.attempt_all fuel cs s) in
   DMAGPIO.__current_address (self s') <= get_size (DMAGPIO._physmem (self s')) /\
   get_size (DMAGPIO._physmem (self s')) = get_size (DMAGPIO._physmem (self s))) /\
  (forall contents bus_address,
     let o := DMAGPIO.__init__ contents bus_address in
     0 <= get_size (DMAGPIO._physmem o) /\
     DMAGPIO.__current_address o <= get_size (DMAGPIO._physmem o)) /\
  (forall c,
     c <> DMAGPIO.call_clear ->
     DMAGPIO.__current_address (self s) <=
       DMAGPIO.__current_address (self (state_of (DMAGPIO.perform fuel c s)))) /\
  DMAGPIO.__current_address (self (state_of (DMAGPIO.perform fuel DMAGPIO.call_clear s))) = 0.
Proof.
  split; [|split; [|split]].
  - revert s. induction cs as [|c cs IH]; intros s Hsize Hcur; cbv zeta.
    + cbn. split; [exact Hcur|reflexivity].
    + rewrite attempt_all_cons.
      pose proof (perform_cursor fuel c s) as [Hsize' Hc]. cbv zeta in Hsize', Hc.
      assert (Hinv : DMAGPIO.__current_address (self (state_of (DMAGPIO.perform fuel c s)))
                       <= get_size (DMAGPIO._physmem (self s)))
        by (destruct c; lia).
      destruct (out_of_fuel (DMAGPIO.perform fuel c s)).
      * split; [lia|exact Hsize'].
      * destruct (IH (state_of (DMAGPIO.perform fuel c s))) as [Hle Heq]; [lia|lia|].
        cbv zeta in Hle, Heq. split; [exact Hle|congruence].
  - intros contents bus_address. cbn. split; lia.
  - intros c Hc. pose proof (perform_cursor fuel c s) as [_ Hcur]. cbv zeta in Hcur.
    destruct c; try lia. congruence.
  - reflexivity.
Qed.

End Cursor.

Lemma cursor_within_capacity_witness :
  let s' := state_of
      (DMAGPIO.attempt_all (K := bcm283x) (D := quiet_device) 1
         [DMAGPIO.call_add_pulse 1 100; DMAGPIO.call_add_pulse 2 100;
          DMAGPIO.call_add_pulse 4 100; DMAGPIO.call_add_delay 50;
          DMAGPIO.call_add_delay 50; DMAGPIO.call_run false]
         (mkState (small_engine 0) [])) in
  DMAGPIO.__current_address (self s') <= get_size (DMAGPIO._physmem (self s')).
Proof.
  destruct (cursor_within_capacity (K := bcm283x) (D := quiet_device) 1
              [DMAGPIO.call_add_pulse 1 100; DMAGPIO.call_add_pulse 2 100;
               DMAGPIO.call_add_pulse 4 100; DMAGPIO.call_add_delay 50;
               DMAGPIO.call_add_delay 50; DMAGPIO.call_run false]
              (mkState (small_engine 0) [])) as (Hinv & _).
  destruct Hinv as [Hle _].
  - cbn. lia.
  - cbn. lia.
  - exact Hle.
Defined.

(** ** The next field of the last block *)

Lemma block_at_insert_next (m : gmap Z Z) (a v : Z) (b : control_block) :
  block_at m a = Some b ->
  block_at (<[a + 20 := v]> m) a = Some (with_next v b).
Proof.
  unfold block_at. intros Hb.
  rewrite (lookup_insert_ne m (a + 20) a) by lia.
  rewrite (lookup_insert_ne m (a + 20) (a + 4)) by lia.
  rewrite (lookup_insert_ne m (a + 20) (a + 8)) by lia.
  rewrite (lookup_insert_ne m (a + 20) (a + 12)) by lia.
  rewrite (lookup_insert_ne m (a + 20) (a + 16)) by lia.
  rewrite (lookup_insert_ne m (a + 20) (a + 24)) by lia.
  rewrite (lookup_insert_ne m (a + 20) (a + 28)) by lia.
  rewrite lookup_insert_eq.
  destruct (m !! a), (m !! (a + 4)), (m !! (a + 8)), (m !! (a + 12)),
    (m !! (a + 16)), (m !! (a + 20)), (m !! (a + 24)), (m !! (a + 28));
    try discriminate.
  injection Hb as <-. reflexivity.
Qed.

Section LastBlock.

Context `{K : rpgpio_private} `{D : device}.

(** C4. With [last] the start of the most recently appended block (32
    bytes below the cursor, when at least one block is there):
    [finalize_stream] returns having stored 0 in the cell at [last + 20]
    and nothing else, with no register access; [run] with [loop] true
    stores the buffer's bus address in that same cell, and with [loop]
    false it is [finalize_stream] followed by [run_stream], so the cell
    holds 0 before the first register access of the hardware programming;
    however the hardware programming ends, the buffer afterwards is the
    buffer with that one cell rewritten. In the block view the stored word
    is the block's next field. An engine that came out of the constructor
    has its cursor at 0 or at least one block above it. *)
Theorem last_block_next_rewritten (fuel : nat) (s : state DMAGPIO.t) :
  let o := self s in
  let cur := DMAGPIO.__current_address o in
  let bus := get_bus_address (DMAGPIO._physmem o) in
  let last := cur - DMAGPIO._DMA_CONTROL_BLOCK_SIZE in
  let rewritten v :=
    mkState (DMAGPIO.with_physmem (cma_write_int (last + 20) v (DMAGPIO._physmem o)) o)
            (trace s) in
  (0 <= last ->
     DMAGPIO.finalize_stream s =
       Ok tt (mkState (self (rewritten 0)) (trace s ++ [ev_log_info cur]))) /\
  (0 <= last -> DMAGPIO.run fuel true s = DMAGPIO.run_stream fuel (rewritten bus)) /\
  (0 <= last ->
     DMAGPIO.run fuel false s = (DMAGPIO.finalize_stream ;; DMAGPIO.run_stream fuel) s) /\
  (0 <= last ->
     cells (DMAGPIO._physmem (self (state_of (DMAGPIO.run fuel true s)))) =
       <[last + 20 := bus]> (cells (DMAGPIO._physmem o))) /\
  (0 <= last ->
     cells (DMAGPIO._physmem (self (state_of (DMAGPIO.run fuel false s)))) =
       <[last + 20 := 0]> (cells (DMAGPIO._physmem o))) /\
  (forall v b,
     block_at (cells (DMAGPIO._physmem o)) last = Some b ->
     block_at (cells (DMAGPIO._physmem (self (rewritten v)))) last =
       Some (with_next v b)) /\
  (forall contents bus_address h cs0,
     let reached :=
       DMAGPIO.__current_address
         (self (state_of (DMAGPIO.attempt_all fuel cs0
                            (mkState (DMAGPIO.__init__ contents bus_address) h)))) in
     reached = 0 \/ 0 <= reached - DMAGPIO._DMA_CONTROL_BLOCK_SIZE).
Proof.
  intros o cur bus last rewritten.
  assert (Haddr : cur + 20 - 32 = last + 20)
    by (unfold last; change DMAGPIO._DMA_CONTROL_BLOCK_SIZE with 32; lia).
  assert (Hne : 0 <= last -> DMAGPIO.__current_address (self s) <> 0)
    by (unfold last, cur, o; change DMAGPIO._DMA_CONTROL_BLOCK_SIZE with 32; lia).
  split; [|split; [|split; [|split; [|split; [|split]]]]].
  - intros _. rewrite finalize_stream_eq. fold o cur. rewrite Haddr. reflexivity.
  - intros Hl. rewrite run_loop by auto. fold o cur bus. rewrite Haddr. reflexivity.
  - intros Hl. apply run_once. auto.
  - intros Hl. rewrite run_loop by auto. fold o cur bus. rewrite Haddr.
    match goal with |- context [DMAGPIO.run_stream fuel ?s1] =>
      destruct (register_only_run_stream fuel s1) as [-> _] end.
    reflexivity.
  - intros Hl. rewrite run_once by auto. unfold bind.
    rewrite finalize_stream_eq. fold o cur. rewrite Haddr.
    match goal with |- context [DMAGPIO.run_stream fuel ?s1] =>
      destruct (register_only_run_stream fuel s1) as [-> _] end.
    reflexivity.
  - intros v b Hb. cbn. now apply block_at_insert_next.
  - intros contents bus_address h cs0 reached.
    destruct (cursor_blocks_attempt_all fuel cs0
                (mkState (DMAGPIO.__init__ contents bus_address) h)) as (k & Hk & Hcur).
    + exists 0. split; [lia|reflexivity].
    + fold reached in Hcur. change DMAGPIO._DMA_CONTROL_BLOCK_SIZE with 32. lia.
Qed.

End LastBlock.

Lemma last_block_next_rewritten_witness :
  DMAGPIO.run (K := bcm283x) (D := quiet_device) 1 true (mkState (small_engine 32) []) =
  DMAGPIO.run_stream (K := bcm283x) (D := quiet_device) 1
    (mkState (DMAGPIO.with_physmem
                {| cells := {[ 20 := 0xC0000000 ]};
                   get_size := 256; get_bus_address := 0xC0000000 |}
                (small_engine 32)) []).
Proof.
  destruct (last_block_next_rewritten (K := bcm283x) (D := quiet_device) 1
              (mkState (small_engine 32) [])) as (_ & Hloop & _).
  rewrite Hloop; [reflexivity|]. vm_compute. discriminate.
Defined.

(** ** clear and reuse *)

Create HintDb shift.

Lemma same_after_ret {O A} h0 (a : A) : same_after (O := O) h0 (ret a) (ret a).
Proof. intros o h. reflexivity. Qed.

Lemma same_after_raise {O A} h0 e : same_after (O := O) (A := A) h0 (raise e) (raise e).
Proof. intros o h. reflexivity. Qed.

Lemma same_after_get_self {O} h0 : same_after (O := O) h0 get_self get_self.
Proof. intros o h. reflexivity. Qed.

Lemma same_after_emit {O} h0 e : same_after (O := O) h0 (emit e) (emit e).
Proof. intros o h. unfold emit. cbn. now rewrite app_assoc. Qed.

Lemma same_after_write_int {O} h0 w a v :
  same_after (O := O) h0 (write_int w a v) (write_int w a v).
Proof. apply same_after_emit. Qed.

Lemma same_after_time_sleep {O} h0 us :
  same_after (O := O) h0 (time_sleep us) (time_sleep us).
Proof. apply same_after_emit. Qed.

Lemma same_after_logging_info {O} h0 a :
  same_after (O := O) h0 (logging_info a) (logging_info a).
Proof. apply same_after_emit. Qed.

Lemma same_after_read_int `{D : device} {O} h0 w a :
  same_after (O := O) h0 (read_int w a) (read_int (D := device_after h0 D) w a).
Proof.
  intros o h. unfold read_int, respond, device_after. cbn. now rewrite app_assoc.
Qed.

Lemma same_after_physmem_write h0 a data :
  same_after h0 (DMAGPIO.physmem_write a data) (DMAGPIO.physmem_write a data).
Proof. intros o h. reflexivity. Qed.

Lemma same_after_physmem_write_int h0 a v :
  same_after h0 (DMAGPIO.physmem_write_int a v) (DMAGPIO.physmem_write_int a v).
Proof. intros o h. reflexivity. Qed.

Lemma same_after_set_current_address h0 a :
  same_after h0 (DMAGPIO.set_current_address a) (DMAGPIO.set_current_address a).
Proof. intros o h. reflexivity. Qed.

Lemma same_after_bind {O A B} h0 (m m' : M O A) (k k' : A -> M O B) :
  same_after h0 m m' -> (forall a, same_after h0 (k a) (k' a)) ->
  same_after h0 (bind m k) (bind m' k').
Proof.
  intros Hm Hk o h. unfold bind. rewrite Hm.
  destruct (m' (mkState o h)) as [a [o1 h1]|e [o1 h1]|[o1 h1]]; cbn; [apply Hk|reflexivity..].
Qed.

Lemma same_after_if {O A} h0 (b : bool) (m1 m1' m2 m2' : M O A) :
  same_after h0 m1 m1' -> same_after h0 m2 m2' ->
  same_after h0 (if b then m1 else m2) (if b then m1' else m2').
Proof. destruct b; auto. Qed.

Lemma same_after_try_except {A} h0 (m m' : M DMAGPIO.t A) :
  same_after h0 m m' ->
  same_after h0 (DMAGPIO.try_except m) (DMAGPIO.try_except m').
Proof.
  intros Hm o h. unfold DMAGPIO.try_except. rewrite Hm.
  destruct (m' (mkState o h)); reflexivity.
Qed.

#[local] Hint Resolve same_after_ret same_after_raise same_after_get_self
  same_after_emit same_after_write_int same_after_time_sleep same_after_logging_info
  same_after_read_int same_after_physmem_write same_after_physmem_write_int
  same_after_set_current_address same_after_bind same_after_if
  same_after_try_except : shift.

Section Reuse.

Context `{K : rpgpio_private} `{D : device}.

Lemma same_after_wait_not_busy h0 (fuel : nat) :
  same_after h0 (DMAGPIO.wait_not_busy fuel)
                (DMAGPIO.wait_not_busy (D := device_after h0 D) fuel).
Proof.
  induction fuel as [|fuel IH]; cbn [DMAGPIO.wait_not_busy].
  - intros o h. reflexivity.
  - auto 20 with shift.
Qed.

Lemma same_after_perform h0 (fuel : nat) (c : DMAGPIO.call) :
  same_after h0 (DMAGPIO.perform fuel c)
                (DMAGPIO.perform (D := device_after h0 D) fuel c).
Proof.
  pose proof (same_after_wait_not_busy h0 fuel) as Hwait.
  destruct c; cbn [DMAGPIO.perform];
    unfold DMAGPIO.add_pulse, DMAGPIO.add_delay, DMAGPIO.finalize_stream,
      DMAGPIO.run, DMAGPIO.run_stream, DMAGPIO.finalize_stream, DMAGPIO.stop,
      DMAGPIO.is_active, DMAGPIO.clear; cbv zeta;
    auto 40 with shift.
Qed.

Lemma same_after_perform_all h0 (fuel : nat) (cs : list DMAGPIO.call) :
  same_after h0 (DMAGPIO.perform_all fuel cs)
                (DMAGPIO.perform_all (D := device_after h0 D) fuel cs).
Proof.
  induction cs as [|c cs IH]; cbn [DMAGPIO.perform_all]; [auto with shift|].
  pose proof (same_after_perform h0 fuel c). auto with shift.
Qed.

Lemma same_after_attempt_all h0 (fuel : nat) (cs : list DMAGPIO.call) :
  same_after h0 (DMAGPIO.attempt_all fuel cs)
                (DMAGPIO.attempt_all (D := device_after h0 D) fuel cs).
Proof.
  induction cs as [|c cs IH]; cbn [DMAGPIO.attempt_all]; [auto with shift|].
  pose proof (same_after_perform h0 fuel c). auto with shift.
Qed.

Lemma constructed_perform (fuel : nat) (c : DMAGPIO.call) (s : state DMAGPIO.t) :
  constructed (self s) -> constructed (self (state_of (DMAGPIO.perform fuel c s))).
Proof.
  intros (contents & bus & cur & Ho).
  assert (Hkeep : forall s', self s' = self s -> constructed (self s'))
    by (intros s' ->; rewrite Ho; now exists contents, bus, cur).
  destruct c; cbn [DMAGPIO.perform].
  - destruct (Z_le_gt_dec (DMAGPIO.__current_address (self s) + 96)
                          (get_size (DMAGPIO._physmem (self s)))) as [Hle|Hgt].
    + rewrite add_pulse_ok by exact Hle. cbn [state_of self]. rewrite Ho.
      eexists _, bus, _. reflexivity.
    + rewrite add_pulse_full by exact Hgt. now apply Hkeep.
  - destruct (Z_le_gt_dec (DMAGPIO.__current_address (self s) + 32)
                          (get_size (DMAGPIO._physmem (self s)))) as [Hle|Hgt].
    + rewrite add_delay_ok by exact Hle. cbn [state_of self]. rewrite Ho.
      eexists _, bus, _. reflexivity.
    + rewrite add_delay_full by exact Hgt. now apply Hkeep.
  - rewrite finalize_stream_eq. cbn [state_of self]. rewrite Ho.
    eexists _, bus, _. reflexivity.
  - apply Hkeep. apply register_only_run_stream.
  - destruct (Z.eq_dec (DMAGPIO.__current_address (self s)) 0) as [H0|Hne].
    + rewrite run_empty by exact H0. now apply Hkeep.
    + destruct loop.
      * rewrite run_loop by exact Hne.
        match goal with |- context [DMAGPIO.run_stream fuel ?s1] =>
          destruct (register_only_run_stream fuel s1) as [-> _] end.
        cbn [self]. rewrite Ho. eexists _, bus, _. reflexivity.
      * rewrite run_once by exact Hne. unfold bind. rewrite finalize_stream_eq.
        match goal with |- context [DMAGPIO.run_stream fuel ?s1] =>
          destruct (register_only_run_stream fuel s1) as [-> _] end.
        cbn [self]. rewrite Ho. eexists _, bus, _. reflexivity.
  - apply Hkeep. apply register_only_stop.
  - apply Hkeep.
    assert (Hro : register_only (DMAGPIO.is_active ;; ret tt))
      by (apply register_only_bind; [apply register_only_is_active|auto with frame]).
    apply Hro.
  - cbn. rewrite Ho. eexists contents, bus, 0. reflexivity.
Qed.

Lemma constructed_attempt_all (fuel : nat) (cs : list DMAGPIO.call) :
  forall s : state DMAGPIO.t,
    constructed (self s) -> constructed (self (state_of (DMAGPIO.attempt_all fuel cs s))).
Proof.
  induction cs as [|c cs IH]; intros s Hs; [exact Hs|].
  rewrite attempt_all_cons.
  pose proof (constructed_perform fuel c s Hs) as Hc.
  destruct (out_of_fuel (DMAGPIO.perform fuel c s)); [exact Hc|now apply IH].
Qed.

End Reuse.

Lemma state_of_prefix_result {O A} (h0 : list event) (r : result O A) :
  self (state_of (prefix_result h0 r)) = self (state_of r) /\
  trace (state_of (prefix_result h0 r)) = h0 ++ trace (state_of r).
Proof. destruct r; split; reflexivity. Qed.

Section ClearReuse.

Context `{K : rpgpio_private} `{D : device}.

(** C7. [clear] returns having set the cursor to 0 and nothing else: the
    history gets no register access and the buffer is the same. For an
    engine that came out of the constructor (and any calls since), the
    state after [clear] is the state of a newly constructed engine over the
    same buffer; so a sequence of calls run after [clear] ends the same way
    (returns, raises or is still polling), with the same object, hence the
    same buffer contents, and performs the same register accesses, as the
    sequence run on the new engine by a device that answers as the old one
    does after the old history. *)
Theorem clear_then_reuse (fuel : nat) (cs : list DMAGPIO.call) (s : state DMAGPIO.t) :
  let cleared := state_of (DMAGPIO.clear s) in
  let fresh :=
    mkState (DMAGPIO.__init__ (cells (DMAGPIO._physmem (self s)))
                              (get_bus_address (DMAGPIO._physmem (self s)))) [] in
  let reused := DMAGPIO.perform_all fuel cs cleared in
  let anew := DMAGPIO.perform_all (D := device_after (trace s) D) fuel cs fresh in
  DMAGPIO.clear s = Ok tt (mkState (DMAGPIO.with_current_address 0 (self s)) (trace s)) /\
  trace cleared = trace s /\
  DMAGPIO._physmem (self cleared) = DMAGPIO._physmem (self s) /\
  DMAGPIO.__current_address (self cleared) = 0 /\
  (constructed (self s) ->
     reused = prefix_result (trace s) anew /\
     self (state_of reused) = self (state_of anew) /\
     trace (state_of reused) = trace s ++ trace (state_of anew) /\
     hw_writes (trace (state_of reused)) =
       hw_writes (trace s) ++ hw_writes (trace (state_of anew)) /\
     DMAGPIO.attempt_all fuel cs cleared =
       prefix_result (trace s)
         (DMAGPIO.attempt_all (D := device_after (trace s) D) fuel cs fresh)) /\
  (forall contents bus_address h cs0,
     constructed
       (self (state_of (DMAGPIO.attempt_all fuel cs0
                          (mkState (DMAGPIO.__init__ contents bus_address) h))))).
Proof.
  intros cleared fresh reused anew.
  split; [reflexivity|]. split; [reflexivity|]. split; [reflexivity|].
  split; [reflexivity|]. split.
  - intros (contents & bus & cur & Ho).
    assert (Hcleared : cleared = mkState (self fresh) (trace s ++ [])).
    { unfold cleared, fresh. cbn. rewrite Ho, app_nil_r. reflexivity. }
    assert (Hreused : reused = prefix_result (trace s) anew).
    { unfold reused, anew. rewrite Hcleared. apply same_after_perform_all. }
    split; [exact Hreused|].
    destruct (state_of_prefix_result (trace s) anew) as [Hself Htrace].
    rewrite Hreused. split; [exact Hself|]. split; [exact Htrace|]. split.
    + rewrite Htrace. unfold hw_writes. apply List.filter_app.
    + rewrite Hcleared. apply same_after_attempt_all.
  - intros contents bus_address h cs0. apply constructed_attempt_all.
    now exists contents, bus_address, 0.
Qed.

End ClearReuse.

Lemma clear_then_reuse_witness :
  let used := mkState (DMAGPIO.with_current_address 96
                         (DMAGPIO.__init__ (K := bcm283x) {[ 20 := 7 ]} 0xC0000000))
                      [ev_sleep 10] in
  let script := [DMAGPIO.call_add_delay 50; DMAGPIO.call_run false] in
  DMAGPIO.perform_all (K := bcm283x) (D := busy_for 2) 5 script
    (state_of (DMAGPIO.clear used)) =
  prefix_result [ev_sleep 10]
    (DMAGPIO.perform_all (K := bcm283x) (D := device_after [ev_sleep 10] (busy_for 2)) 5
       script (mkState (DMAGPIO.__init__ (K := bcm283x) {[ 20 := 7 ]} 0xC0000000) [])).
Proof.
  intros used script.
  destruct (clear_then_reuse (K := bcm283x) (D := busy_for 2) 5 script used)
    as (_ & _ & _ & _ & Hreuse & _).
  destruct Hreuse as [Heq _].
  - exists {[ 20 := 7 ]}, 0xC0000000, 96. reflexivity.
  - exact Heq.
Defined.

(** * Further properties of the engine and of the pin controller *)

(** ** A single delay block *)

Lemma block_at_write_words_outside (data : list Z) lo (m : gmap Z Z) a :
  a + 32 <= lo \/ lo + 4 * Z.of_nat (length data) <= a ->
  block_at (write_words lo data m) a = block_at m a.
Proof.
  intros Ha. unfold block_at.
  rewrite !write_words_lookup_out by lia. reflexivity.
Qed.

Lemma block_at_insert_outside (m : gmap Z Z) key v a :
  key < a \/ a + 32 <= key ->
  block_at (<[key := v]> m) a = block_at m a.
Proof.
  intros Ha. unfold block_at.
  rewrite !lookup_insert_ne by lia. reflexivity.
Qed.

(** X1. When one block fits at a cursor inside the buffer and
    [16 * delay_us] is a 32-bit word, [add_delay] returns and the 32 bytes
    from the old cursor hold one delay block: the engine's delay flags,
    destination and stride, length word [16 * delay_us], source the bus
    address of the block's own trailing words, trailing words [0; 0], and
    next the bus address of the new cursor. No other cell changes, the
    cursor is 32 further, capacity and bus address stay, nothing reaches
    the registers. On an engine whose own descriptor words and buffer
    addresses fit 32 bits, every word of the block is a 32-bit word. *)
Theorem add_delay_appends_one_block (s : state DMAGPIO.t) (delay_us : Z) :
  let o := self s in
  let cur := DMAGPIO.__current_address o in
  let bus := get_bus_address (DMAGPIO._physmem o) in
  uint32 (16 * delay_us) ->
  0 <= cur ->
  cur + 32 <= get_size (DMAGPIO._physmem o) ->
  exists s',
    DMAGPIO.add_delay delay_us s = Ok tt s' /\
    block_at (cells (DMAGPIO._physmem (self s'))) cur =
      Some {| cb_info := DMAGPIO._delay_info o;
              cb_source := bus + (cur + 24);
              cb_destination := DMAGPIO._delay_destination o;
              cb_length := 16 * delay_us;
              cb_stride := DMAGPIO._delay_stride o;
              cb_next := bus + DMAGPIO.__current_address (self s');
              cb_trailing0 := 0;
              cb_trailing1 := 0 |} /\
    (words_fit o -> uint32_block (delay_block o delay_us cur)) /\
    (forall k, k < cur \/ cur + 32 <= k ->
       cells (DMAGPIO._physmem (self s')) !! k = cells (DMAGPIO._physmem o) !! k) /\
    DMAGPIO.__current_address (self s') = cur + 32 /\
    get_size (DMAGPIO._physmem (self s')) = get_size (DMAGPIO._physmem o) /\
    get_bus_address (DMAGPIO._physmem (self s')) = bus /\
    trace s' = trace s.
Proof.
  intros o cur bus Hlen Hcur Hfit.
  eexists. split; [apply add_delay_ok; exact Hfit|].
  fold o. fold cur. fold bus. cbn [self trace DMAGPIO.with_current_address
    DMAGPIO.with_physmem DMAGPIO._physmem DMAGPIO.__current_address cma_write
    cells get_size get_bus_address].
  split; [|split; [|split; [|split; [|split; [|split]]]]]; try reflexivity.
  - erewrite (block_at_write_words _ _ _ 0); [|lia|reflexivity..].
    do 2 f_equal; lia.
  - intros (_ & _ & _ & _ & Hdi & Hdd & Hds & Hbus & Hend).
    fold o in Hdi, Hdd, Hds, Hbus, Hend. fold bus in Hbus, Hend.
    unfold uint32_block, delay_block, uint32 in *.
    cbn [cb_info cb_source cb_destination cb_length cb_stride cb_next
      cb_trailing0 cb_trailing1]. fold o bus.
    repeat split; lia.
  - intros k Hk. apply write_words_lookup_out. simpl length. lia.
Qed.

Lemma add_delay_appends_one_block_witness :
  exists s',
    DMAGPIO.add_delay 50 (mkState (small_engine 96) []) = Ok tt s' /\
    block_at (cells (DMAGPIO._physmem (self s'))) 96 =
      Some {| cb_info := 0x4050840; cb_source := 0xC0000000 + 120;
              cb_destination := 0x7E20C018; cb_length := 800;
              cb_stride := 0; cb_next := 0xC0000000 + DMAGPIO.__current_address (self s');
              cb_trailing0 := 0; cb_trailing1 := 0 |} /\
    uint32_block (delay_block (small_engine 96) 50 96) /\
    DMAGPIO.__current_address (self s') = 128.
Proof.
  destruct (add_delay_appends_one_block (mkState (small_engine 96) []) 50)
    as (s' & Hrun & Hblock & Hwords & _ & Hcur & _);
    [unfold uint32; lia | vm_compute; discriminate | vm_compute; discriminate |].
  exists s'. split; [exact Hrun|]. split; [exact Hblock|]. split; [|exact Hcur].
  apply Hwords. unfold words_fit, uint32. vm_compute.
  repeat split; (discriminate || reflexivity).
Defined.

(** ** The chain stays linked while it is built *)

Lemma well_linked_add_delay (s : state DMAGPIO.t) (delay_us : Z) :
  well_linked (self s) ->
  well_linked (self (state_of (DMAGPIO.add_delay delay_us s))).
Proof.
  intros (n & Hn & Hcur & Hlinked).
  destruct (Z_le_gt_dec (DMAGPIO.__current_address (self s) + 32)
                        (get_size (DMAGPIO._physmem (self s)))) as [Hle|Hgt].
  - rewrite add_delay_ok by exact Hle.
    exists (n + 1). cbn [state_of self DMAGPIO.with_current_address DMAGPIO.with_physmem
      DMAGPIO._physmem DMAGPIO.__current_address cma_write cells get_bus_address].
    split; [lia|]. split; [lia|]. intros k Hk.
    destruct (Z.eq_dec k n) as [->|Hne].
    + erewrite (block_at_write_words _ _ _ 0); [|lia|reflexivity..].
      eexists. split; [reflexivity|]. cbn. lia.
    + rewrite block_at_write_words_outside by lia. apply Hlinked. lia.
  - rewrite add_delay_full by exact Hgt. now exists n.
Qed.

Lemma well_linked_add_pulse (s : state DMAGPIO.t) (pins_mask length_us : Z) :
  well_linked (self s) ->
  well_linked (self (state_of (DMAGPIO.add_pulse pins_mask length_us s))).
Proof.
  intros (n & Hn & Hcur & Hlinked).
  destruct (Z_le_gt_dec (DMAGPIO.__current_address (self s) + 96)
                        (get_size (DMAGPIO._physmem (self s)))) as [Hle|Hgt].
  - rewrite add_pulse_ok by exact Hle.
    exists (n + 3). cbn [state_of self DMAGPIO.with_current_address DMAGPIO.with_physmem
      DMAGPIO._physmem DMAGPIO.__current_address cma_write cells get_bus_address].
    split; [lia|]. split; [lia|]. intros k Hk.
    destruct (Z.eq_dec k n) as [->|Hn0];
      [|destruct (Z.eq_dec k (n + 1)) as [->|Hn1];
        [|destruct (Z.eq_dec k (n + 2)) as [->|Hn2]]].
    + erewrite (block_at_write_words _ _ _ 0); [|lia|reflexivity..].
      eexists. split; [reflexivity|]. cbn. lia.
    + erewrite (block_at_write_words _ _ _ 1); [|lia|reflexivity..].
      eexists. split; [reflexivity|]. cbn. lia.
    + erewrite (block_at_write_words _ _ _ 2); [|lia|reflexivity..].
      eexists. split; [reflexivity|]. cbn. lia.
    + rewrite block_at_write_words_outside by lia. apply Hlinked. lia.
  - rewrite add_pulse_full by exact Hgt. now exists n.
Qed.

Section ChainBuilding.

Context `{K : rpgpio_private} `{D : device}.

Lemma well_linked_builder (fuel : nat) (c : DMAGPIO.call) (s : state DMAGPIO.t) :
  is_builder c = true ->
  well_linked (self s) ->
  well_linked (self (state_of (DMAGPIO.perform fuel c s))) /\
  out_of_fuel (DMAGPIO.perform fuel c s) = false.
Proof.
  intros Hb Hs. destruct c; try discriminate; cbn [DMAGPIO.perform].
  - split; [now apply well_linked_add_pulse|].
    pose proof (never_blocks_perform_other fuel (DMAGPIO.call_add_pulse pins_mask length_us))
      as Hnb. apply Hnb.
  - split; [now apply well_linked_add_delay|].
    pose proof (never_blocks_perform_other fuel (DMAGPIO.call_add_delay delay_us)) as Hnb.
    apply Hnb.
  - split; [|reflexivity]. exists 0. cbn. split; [lia|]. split; [reflexivity|].
    intros k Hk. lia.
Qed.

(** X2. Whatever sequence of [add_pulse], [add_delay] and [clear] calls
    is made on a newly constructed engine (the caller going on after a
    [MemoryError]), the sequence runs to its end and leaves the cursor on a
    whole number [n] of blocks with blocks [0 .. n-1] all written and each
    one's next field equal to the bus address of the block that follows it
    in the buffer. The same holds from any state that is already so
    linked. *)
Theorem built_chain_is_linked (fuel : nat) (cs : list DMAGPIO.call) (s : state DMAGPIO.t) :
  forallb is_builder cs = true ->
  (well_linked (self s) ->
     well_linked (self (state_of (DMAGPIO.attempt_all fuel cs s))) /\
     returns (DMAGPIO.attempt_all fuel cs s) = true) /\
  (forall contents bus_address h,
     well_linked
       (self (state_of (DMAGPIO.attempt_all fuel cs
                          (mkState (DMAGPIO.__init__ contents bus_address) h)))) /\
     returns (DMAGPIO.attempt_all fuel cs
                (mkState (DMAGPIO.__init__ contents bus_address) h)) = true).
Proof.
  intros Hcs.
  assert (Hgen : forall s0 : state DMAGPIO.t, well_linked (self s0) ->
            well_linked (self (state_of (DMAGPIO.attempt_all fuel cs s0))) /\
            returns (DMAGPIO.attempt_all fuel cs s0) = true).
  { clear s. induction cs as [|c cs IH]; intros s0 Hs0; [split; [exact Hs0|reflexivity]|].
    cbn [forallb] in Hcs. apply andb_prop in Hcs as [Hc Hcs].
    destruct (well_linked_builder fuel c s0 Hc Hs0) as [Hstep Hfuel].
    specialize (IH Hcs (state_of (DMAGPIO.perform fuel c s0)) Hstep).
    rewrite attempt_all_cons, Hfuel. split; [apply IH|].
    cbn [DMAGPIO.attempt_all]. unfold bind, DMAGPIO.try_except.
    destruct (DMAGPIO.perform fuel c s0); cbn in *; try discriminate; apply IH. }
  split; [apply Hgen|].
  intros contents bus_address h. apply Hgen.
  exists 0. cbn. split; [lia|]. split; [reflexivity|]. intros k Hk. lia.
Qed.

End ChainBuilding.

Lemma built_chain_is_linked_witness :
  well_linked
    (self (state_of
       (DMAGPIO.attempt_all (K := bcm283x) (D := quiet_device) 0
          [DMAGPIO.call_add_delay 5; DMAGPIO.call_clear;
           DMAGPIO.call_add_pulse 1 100; DMAGPIO.call_add_delay 50]
          (mkState (DMAGPIO.__init__ (K := bcm283x) ∅ 0xC0000000) [])))).
Proof.
  destruct (built_chain_is_linked (K := bcm283x) (D := quiet_device) 0
              [DMAGPIO.call_add_delay 5; DMAGPIO.call_clear;
               DMAGPIO.call_add_pulse 1 100; DMAGPIO.call_add_delay 50]
              (mkState (DMAGPIO.__init__ (K := bcm283x) ∅ 0xC0000000) []))
    as (_ & Hinit); [reflexivity|].
  apply Hinit.
Defined.

(** ** Closing the chain *)

Lemma closed_chain_insert (m : gmap Z Z) (bus n v : Z) :
  1 <= n -> linked m bus n ->
  closed_chain (<[32 * n + 20 - 32 := v]> m) bus n v.
Proof.
  intros Hn Hlinked k Hk.
  destruct (Hlinked k Hk) as (b & Hb & Hnext).
  destruct (Z.eqb_spec k (n - 1)) as [->|Hne].
  - replace (32 * n + 20 - 32) with (32 * (n - 1) + 20) by lia.
    rewrite (block_at_insert_next _ _ v _ Hb). eexists. split; reflexivity.
  - rewrite block_at_insert_outside by lia. exists b. now split.
Qed.

Section ChainClosing.

Context `{K : rpgpio_private} `{D : device}.

(** X3. On a chain of [n >= 1] linked blocks, [finalize_stream] and
    [run] leave a closed chain, however the hardware programming of [run]
    ends: every block but the last still points at the block after it, and
    the last block's next field is 0 after [finalize_stream] and after
    [run] with [loop] false, and the bus address of block 0 after [run]
    with [loop] true. So every next field of the chain is 0 or the bus
    address of one of the [n] blocks: none points at the unwritten space
    behind the chain. *)
Theorem closed_chain_never_dangles (fuel : nat) (loop : bool) (s : state DMAGPIO.t)
    (n : Z) :
  let o := self s in
  let bus := get_bus_address (DMAGPIO._physmem o) in
  1 <= n ->
  DMAGPIO.__current_address o = 32 * n ->
  linked (cells (DMAGPIO._physmem o)) bus n ->
  let finalized := cells (DMAGPIO._physmem (self (state_of (DMAGPIO.finalize_stream s)))) in
  let ran := cells (DMAGPIO._physmem (self (state_of (DMAGPIO.run fuel loop s)))) in
  closed_chain finalized bus n 0 /\
  closed_chain ran bus n (if loop then bus else 0) /\
  (forall k, 0 <= k < n ->
     exists b, block_at ran (32 * k) = Some b /\
       (cb_next b = 0 \/ exists j, 0 <= j < n /\ cb_next b = bus + 32 * j)).
Proof.
  intros o bus Hn Hcur Hlinked finalized ran.
  assert (Hne : DMAGPIO.__current_address (self s) <> 0) by (fold o; lia).
  assert (Hfin : closed_chain finalized bus n 0).
  { unfold finalized. rewrite finalize_stream_eq. cbn. fold o. rewrite Hcur.
    now apply closed_chain_insert. }
  assert (Hran : closed_chain ran bus n (if loop then bus else 0)).
  { unfold ran. destruct loop.
    - rewrite run_loop by exact Hne.
      match goal with |- context [DMAGPIO.run_stream fuel ?s1] =>
        destruct (register_only_run_stream fuel s1) as [-> _] end.
      cbn. fold o. rewrite Hcur. now apply closed_chain_insert.
    - rewrite run_once by exact Hne. unfold bind. rewrite finalize_stream_eq.
      match goal with |- context [DMAGPIO.run_stream fuel ?s1] =>
        destruct (register_only_run_stream fuel s1) as [-> _] end.
      cbn. fold o. rewrite Hcur. now apply closed_chain_insert. }
  split; [exact Hfin|]. split; [exact Hran|].
  intros k Hk. destruct (Hran k Hk) as (b & Hb & Hnext). exists b. split; [exact Hb|].
  destruct (Z.eqb_spec k (n - 1)) as [->|Hlast].
  - destruct loop; [right|left; exact Hnext].
    exists 0. split; [lia|]. rewrite Hnext. lia.
  - right. exists (k + 1). split; [lia|exact Hnext].
Qed.

End ChainClosing.

Lemma closed_chain_never_dangles_witness :
  let s := state_of (DMAGPIO.add_pulse 1 100 (mkState (small_engine 0) [])) in
  closed_chain
    (cells (DMAGPIO._physmem
       (self (state_of (DMAGPIO.run (K := bcm283x) (D := quiet_device) 1 true s)))))
    0xC0000000 3 0xC0000000.
Proof.
  intros s.
  destruct (closed_chain_never_dangles (K := bcm283x) (D := quiet_device) 1 true s 3)
    as (_ & Hran & _).
  - lia.
  - reflexivity.
  - intros k Hk.
    assert (Hcases : k = 0 \/ k = 1 \/ k = 2) by lia.
    destruct Hcases as [->|[->| ->]]; vm_compute; eexists; split; reflexivity.
  - exact Hran.
Defined.

(** ** Appending to a closed chain *)

Lemma closed_chain_write_words (m : gmap Z Z) (bus n v : Z) (data : list Z) :
  closed_chain m bus n v ->
  closed_chain (write_words (32 * n) data m) bus n v.
Proof.
  intros Hclosed k Hk. rewrite block_at_write_words_outside by lia. now apply Hclosed.
Qed.

(** X4. The append operations never relink what is below the cursor: on
    a chain of [n] blocks whose last next field holds [v] (0 after
    [finalize_stream], the head's bus address after a looped [run]), an
    [add_pulse] or [add_delay] that returns moves the cursor on but leaves
    that field at [v] and every earlier link as it was: a chain that was
    ended or looped still ends or loops at its old last block. *)
Theorem append_keeps_closed_chain (s : state DMAGPIO.t)
    (n v pins_mask length_us delay_us : Z) :
  let o := self s in
  let bus := get_bus_address (DMAGPIO._physmem o) in
  let size := get_size (DMAGPIO._physmem o) in
  0 <= n ->
  DMAGPIO.__current_address o = 32 * n ->
  closed_chain (cells (DMAGPIO._physmem o)) bus n v ->
  (32 * n + 96 <= size ->
     exists s', DMAGPIO.add_pulse pins_mask length_us s = Ok tt s' /\
       DMAGPIO.__current_address (self s') = 32 * (n + 3) /\
       closed_chain (cells (DMAGPIO._physmem (self s'))) bus n v) /\
  (32 * n + 32 <= size ->
     exists s', DMAGPIO.add_delay delay_us s = Ok tt s' /\
       DMAGPIO.__current_address (self s') = 32 * (n + 1) /\
       closed_chain (cells (DMAGPIO._physmem (self s'))) bus n v).
Proof.
  intros o bus size Hn Hcur Hclosed. split; intros Hfit.
  - eexists. split; [apply add_pulse_ok; fold o size; lia|].
    cbn [self DMAGPIO.with_current_address DMAGPIO.with_physmem DMAGPIO._physmem
      DMAGPIO.__current_address cma_write cells].
    fold o. rewrite Hcur. split; [lia|]. now apply closed_chain_write_words.
  - eexists. split; [apply add_delay_ok; fold o size; lia|].
    cbn [self DMAGPIO.with_current_address DMAGPIO.with_physmem DMAGPIO._physmem
      DMAGPIO.__current_address cma_write cells].
    fold o. rewrite Hcur. split; [lia|]. now apply closed_chain_write_words.
Qed.

Lemma append_keeps_closed_chain_witness :
  let s := state_of (DMAGPIO.finalize_stream
             (state_of (DMAGPIO.add_delay 50 (mkState (small_engine 0) [])))) in
  exists s', DMAGPIO.add_delay 70 s = Ok tt s' /\
    DMAGPIO.__current_address (self s') = 64 /\
    closed_chain (cells (DMAGPIO._physmem (self s'))) 0xC0000000 1 0.
Proof.
  intros s.
  destruct (append_keeps_closed_chain s 1 0 1 100 70) as (_ & Hdelay).
  - lia.
  - reflexivity.
  - intros k Hk. assert (k = 0) as -> by lia.
    vm_compute. eexists. split; reflexivity.
  - apply Hdelay. vm_compute. discriminate.
Defined.

(** ** What run_stream stores into the registers *)

Section RunStreamStores.

Context `{K : rpgpio_private} `{D : device}.

Lemma wait_not_busy_writes (fuel : nat) : forall (o : DMAGPIO.t) (h : list event),
  hw_writes (trace (state_of (DMAGPIO.wait_not_busy fuel (mkState o h)))) = hw_writes h.
Proof.
  induction fuel as [|fuel IH]; intros o h; [reflexivity|].
  rewrite wait_not_busy_step. cbv zeta.
  destruct (busy (respond h (DMAGPIO._clock o) CM_CNTL)).
  - rewrite IH. unfold hw_writes. rewrite List.filter_app. cbn. apply app_nil_r.
  - cbn. unfold hw_writes. rewrite List.filter_app. cbn. apply app_nil_r.
Qed.

(** X5. [run_stream] checks nothing: for every engine state, an empty
    chain included, it never raises and never touches cursor or buffer.
    It first stores 0 into PWM control and the clock word without the
    enable flag, and these are its only stores until the busy-wait ends.
    If it returns, what follows the wait is, in this order: the divisor for
    50, the clock enabled, PWM range 100, the PWM DMA configuration, the
    FIFO cleared, the PWM enabled, one load of the status register of DMA
    channel 5, the store of the word just loaded with the end flag set, the
    buffer's bus address into the channel's block address register, the
    priority word, and last the priority word with the active flag. If the
    clock is still busy when the polling stops, nothing after the first two
    stores was issued: the DMA channel is not started. *)
Theorem run_stream_stores (fuel : nat) (s : state DMAGPIO.t) :
  let o := self s in
  let r := DMAGPIO.run_stream fuel s in
  let addr := 0x100 * DMAGPIO._DMA_CHANNEL in
  let go := Z.lor (Z.lor (DMA_CS_PRIORITY 7) (DMA_CS_PANIC_PRIORITY 7)) DMA_CS_DISDEBUG in
  let first :=
    [ ev_write_int (DMAGPIO._pwm o) PWM_CTL 0;
      ev_write_int (DMAGPIO._clock o) CM_CNTL (Z.lor CM_PASSWORD CM_SRC_PLLD) ] in
  let settle :=
    [ ev_write_int (DMAGPIO._clock o) CM_DIV (Z.lor CM_PASSWORD (CM_DIV_VALUE 50));
      ev_write_int (DMAGPIO._clock o) CM_CNTL
        (Z.lor (Z.lor CM_PASSWORD CM_SRC_PLLD) CM_ENABLE);
      ev_write_int (DMAGPIO._pwm o) PWM_RNG1 100;
      ev_write_int (DMAGPIO._pwm o) PWM_DMAC
        (Z.lor (Z.lor PWM_DMAC_ENAB (PWM_DMAC_PANIC 15)) (PWM_DMAC_DREQ 15));
      ev_write_int (DMAGPIO._pwm o) PWM_CTL PWM_CTL_CLRF;
      ev_write_int (DMAGPIO._pwm o) PWM_CTL (Z.lor PWM_CTL_USEF1 PWM_CTL_PWEN1) ] in
  raises r = None /\
  self (state_of r) = o /\
  (returns r = true ->
     exists waited,
       hw_writes waited = hw_writes (trace s) ++ first /\
       let cs := respond (waited ++ settle) (DMAGPIO._dma o) addr in
       trace (state_of r) =
         waited ++ settle ++
         [ ev_read_int (DMAGPIO._dma o) addr cs;
           ev_write_int (DMAGPIO._dma o) addr (Z.lor cs DMA_CS_END);
           ev_write_int (DMAGPIO._dma o) (addr + 4)
             (get_bus_address (DMAGPIO._physmem o));
           ev_write_int (DMAGPIO._dma o) addr go;
           ev_write_int (DMAGPIO._dma o) addr (Z.lor go DMA_CS_ACTIVE) ]) /\
  (returns r = false ->
     hw_writes (trace (state_of r)) = hw_writes (trace s) ++ first).
Proof.
  intros o r addr go first settle.
  destruct (register_only_run_stream fuel s) as [Hself Hraise].
  split; [exact Hraise|]. split; [exact Hself|].
  unfold r. destruct s as [o' h]. cbn [self trace] in *. subst o.
  rewrite run_stream_eq.
  pose proof (wait_not_busy_writes fuel o' (h ++ before_wait o')) as Hw.
  destruct (DMAGPIO.wait_not_busy fuel (mkState o' (h ++ before_wait o')))
    as [[] s2|e s2|s2]; cbn [state_of trace self returns raises] in *.
  - split; [|discriminate]. intros _. exists (trace s2). split.
    + rewrite Hw. unfold hw_writes. rewrite List.filter_app. reflexivity.
    + reflexivity.
  - split; [discriminate|]. intros _.
    rewrite Hw. unfold hw_writes. rewrite List.filter_app. reflexivity.
  - split; [discriminate|]. intros _.
    rewrite Hw. unfold hw_writes. rewrite List.filter_app. reflexivity.
Qed.

End RunStreamStores.

Lemma run_stream_stores_witness :
  let s := mkState (small_engine 0) [] in
  let dma := {| phys_address := 0x3F007000 |} in
  exists waited,
    hw_writes waited =
      [ ev_write_int (DMAGPIO._pwm (small_engine 0)) 0 0;
        ev_write_int (DMAGPIO._clock (small_engine 0)) 40 0x5A000006 ] /\
    exists settle,
      trace (state_of (DMAGPIO.run_stream (K := bcm283x) (D := quiet_device) 1 s)) =
        waited ++ settle ++
        [ ev_read_int dma 1280 0; ev_write_int dma 1280 2;
          ev_write_int dma 1284 0xC0000000;
          ev_write_int dma 1280 0x20770000; ev_write_int dma 1280 0x20770001 ].
Proof.
  intros s dma.
  destruct (run_stream_stores (K := bcm283x) (D := quiet_device) 1 s)
    as (_ & _ & Hreturned & _).
  destruct Hreturned as (waited & Hfirst & Htrace); [reflexivity|].
  exists waited. split; [exact Hfirst|]. eexists. exact Htrace.
Defined.

(** ** Single bits and 3-bit fields *)

Lemma land_single_bit (v i : Z) :
  0 <= i ->
  Z.land v (Z.shiftl 1 i) = if Z.testbit v i then Z.shiftl 1 i else 0.
Proof.
  intros Hi. apply Z.bits_inj'. intros n Hn.
  rewrite Z.land_spec, shiftl_1_single_bit by exact Hi.
  destruct (Z.eqb_spec i n) as [->|Hne].
  - destruct (Z.testbit v n) eqn:Hv.
    + rewrite shiftl_1_single_bit, Z.eqb_refl by exact Hn. reflexivity.
    + now rewrite Z.bits_0.
  - rewrite andb_false_r. destruct (Z.testbit v i).
    + rewrite shiftl_1_single_bit by exact Hi.
      symmetry. now apply Z.eqb_neq.
    + now rewrite Z.bits_0.
Qed.

Lemma shiftl_1_nonzero (i : Z) : 0 <= i -> Z.shiftl 1 i <> 0.
Proof.
  intros Hi. rewrite Z.shiftl_1_l. apply Z.pow_nonzero; lia.
Qed.

Lemma field_bits (k n : Z) :
  0 <= k -> 0 <= n ->
  Z.testbit (Z.shiftl 7 k) n = (k <=? n) && (n <? k + 3).
Proof.
  intros Hk Hn. rewrite Z.shiftl_spec by exact Hn.
  destruct (Z.leb_spec k n) as [Hle|Hlt].
  - change 7 with (Z.ones 3). rewrite Z.testbit_ones by lia.
    destruct (Z.leb_spec 0 (n - k)); [|lia]. cbn [andb].
    destruct (Z.ltb_spec (n - k) 3), (Z.ltb_spec n (k + 3)); (reflexivity || lia).
  - rewrite Z.testbit_neg_r by lia. reflexivity.
Qed.

Lemma fields_disjoint (a b n : Z) :
  0 <= a -> 0 <= b -> a <> b -> 0 <= n ->
  Z.testbit (Z.shiftl 7 (b * 3)) n = true ->
  Z.testbit (Z.shiftl 7 (a * 3)) n = false /\ Z.testbit (Z.shiftl 1 (a * 3)) n = false.
Proof.
  intros Ha Hb Hab Hn Hbit.
  rewrite field_bits in Hbit by lia. apply andb_prop in Hbit as [H1 H2].
  apply Z.leb_le in H1. apply Z.ltb_lt in H2.
  rewrite field_bits, shiftl_1_single_bit by lia. split.
  - destruct (Z.leb_spec (a * 3) n), (Z.ltb_spec n (a * 3 + 3)); try reflexivity. lia.
  - apply Z.eqb_neq. lia.
Qed.

(** ** GPIO: set, clear, read *)

Section GpioLines.

Context `{K : rpgpio_private} `{D : device}.

(** X6. For a pin number in [0, 2 ^ 53) (the range in which the
    source's [int(pin / 32)] is the exact quotient), [set] and [clear] each
    return after one register store and no load. The word stored has exactly one bit set, bit [pin mod 32]; it goes
    to the output-set (for [clear]: output-clear) register of the pin's
    bank: the register at the base offset for pins 0 to 31, the next word
    for pins 32 to 63. Both store the same word for the same pin. *)
Theorem set_clear_single_store (s : state GPIO.t) (pin : Z) :
  0 <= pin < 2 ^ 53 ->
  let g := GPIO._mem (self s) in
  let word := Z.shiftl 1 (pin mod 32) in
  let bank := 4 * int_div pin 32 in
  GPIO.set pin s =
    Ok tt (mkState (self s) (trace s ++ [ev_write_int g (bank + GPIO_SET_OFFSET) word])) /\
  GPIO.clear pin s =
    Ok tt (mkState (self s) (trace s ++ [ev_write_int g (bank + GPIO_CLEAR_OFFSET) word])) /\
  (forall n, Z.testbit word n = (pin mod 32 =? n)) /\
  (0 <= pin < 32 -> bank = 0) /\
  (32 <= pin < 64 -> bank = 4).
Proof.
  intros _ g word bank. split; [reflexivity|]. split; [reflexivity|]. split; [|split].
  - intros n. apply shiftl_1_single_bit. apply Z.mod_pos_bound. lia.
  - intros Hpin. unfold bank, int_div. rewrite Z.quot_small by lia. reflexivity.
  - intros Hpin. unfold bank, int_div.
    rewrite Z.quot_div_nonneg by lia.
    assert (pin / 32 = 1) as -> by (Z.to_euclidean_division_equations; lia).
    reflexivity.
Qed.

(** X7. For a pin number in [0, 2 ^ 53) (the range in which the
    source's [int(pin / 32)] is the exact quotient), [read] returns after
    one register load and no store, with 1 if
    bit [pin mod 32] of the word the input-level register of the pin's bank
    answered is set and 0 otherwise; the other bits of that word do not
    matter. *)
Theorem read_returns_pin_bit (s : state GPIO.t) (pin : Z) :
  0 <= pin < 2 ^ 53 ->
  let g := GPIO._mem (self s) in
  let addr := 4 * int_div pin 32 + GPIO_INPUT_OFFSET in
  let v := respond (trace s) g addr in
  GPIO.read pin s =
    Ok (Z.b2z (Z.testbit v (pin mod 32)))
       (mkState (self s) (trace s ++ [ev_read_int g addr v])).
Proof.
  intros _ g addr v.
  unfold GPIO.read, bind, get_self, read_int, ret. cbn [self trace].
  fold g addr v.
  assert (Hbit : 0 <= pin mod 32) by (apply Z.mod_pos_bound; lia).
  rewrite land_single_bit by exact Hbit.
  destruct (Z.testbit v (pin mod 32)).
  - destruct (Z.eqb_spec (Z.shiftl 1 (pin mod 32)) 0) as [H0|_]; [|reflexivity].
    now apply shiftl_1_nonzero in H0.
  - reflexivity.
Qed.

End GpioLines.

Lemma read_returns_pin_bit_witness :
  GPIO.read (K := bcm283x) (D := quiet_device) 21
    (mkState (GPIO.__init__ (K := bcm283x)) []) =
  Ok 0 (mkState (GPIO.__init__ (K := bcm283x))
          [ev_read_int {| phys_address := 0x3F200000 |} 0x34 0]).
Proof.
  apply (read_returns_pin_bit (K := bcm283x) (D := quiet_device)
           (mkState (GPIO.__init__ (K := bcm283x)) []) 21).
  lia.
Defined.

Lemma set_clear_single_store_witness :
  GPIO.set (K := bcm283x) 21 (mkState (GPIO.__init__ (K := bcm283x)) []) =
    Ok tt (mkState (GPIO.__init__ (K := bcm283x))
             [ev_write_int {| phys_address := 0x3F200000 |} 0x1C (Z.shiftl 1 21)]) /\
  GPIO.clear (K := bcm283x) 40 (mkState (GPIO.__init__ (K := bcm283x)) []) =
    Ok tt (mkState (GPIO.__init__ (K := bcm283x))
             [ev_write_int {| phys_address := 0x3F200000 |} 0x2C (Z.shiftl 1 8)]) /\
  4 * int_div 21 32 = 0 /\ 4 * int_div 40 32 = 4.
Proof.
  destruct (set_clear_single_store (K := bcm283x)
              (mkState (GPIO.__init__ (K := bcm283x)) []) 21 ltac:(lia))
    as (Hset & _ & _ & Hlow & _).
  destruct (set_clear_single_store (K := bcm283x)
              (mkState (GPIO.__init__ (K := bcm283x)) []) 40 ltac:(lia))
    as (_ & Hclear & _ & _ & Hhigh).
  split; [exact Hset|]. split; [exact Hclear|].
  split; [apply Hlow; lia|apply Hhigh; lia].
Defined.

(** ** GPIO.init: output mode, unknown modes, neighbouring pins *)

Section GpioInit.

Context `{K : rpgpio_private} `{D : device}.

(** X8. For a pin number in [0, 2 ^ 53) (the range in which the
    source's [int(pin / 10)] is the exact quotient),
    [init pin MODE_OUTPUT] returns after one load and one store of
    the pin's function-select register and no access to the pull registers.
    The word stored has the pin's 3-bit field equal to 1 (output) and every
    bit outside that field as it was loaded. *)
Theorem init_output_sets_field (s : state GPIO.t) (pin : Z) :
  0 <= pin < 2 ^ 53 ->
  let g := GPIO._mem (self s) in
  let fsel := 4 * int_div pin 10 + GPIO_FSEL_OFFSET in
  let shift := (pin mod 10) * 3 in
  let field := Z.shiftl 7 shift in
  let v := respond (trace s) g fsel in
  let v' := Z.lor (Z.land v (Z.lnot field)) (Z.shiftl 1 shift) in
  GPIO.init pin GPIO.MODE_OUTPUT s =
    Ok tt (mkState (self s)
             (trace s ++ [ev_read_int g fsel v; ev_write_int g fsel v'])) /\
  Z.land v' field = Z.shiftl 1 shift /\
  (forall n, 0 <= n -> Z.testbit field n = false -> Z.testbit v' n = Z.testbit v n).
Proof.
  intros _ g fsel shift field v v'.
  assert (Hshift : 0 <= shift)
    by (unfold shift; pose proof (Z.mod_pos_bound pin 10); lia).
  split; [|split].
  - unfold GPIO.init, bind, get_self, read_int, write_int, emit.
    cbn [self trace]. change (GPIO.MODE_OUTPUT =? GPIO.MODE_OUTPUT) with true.
    cbv iota. cbn [self trace]. rewrite <- app_assoc. reflexivity.
  - unfold v'. rewrite Z.land_lor_distr_l, land_lnot_same, Z.lor_0_l.
    unfold field. rewrite <- Z.shiftl_land. reflexivity.
  - intros n Hn Hfield. unfold v'.
    rewrite Z.lor_spec, land_lnot_keeps by assumption.
    unfold field in Hfield. rewrite field_bits in Hfield by assumption.
    rewrite shiftl_1_single_bit by exact Hshift.
    destruct (Z.eqb_spec shift n) as [->|Hne]; [|apply orb_false_r].
    rewrite Z.leb_refl in Hfield. cbn [andb] in Hfield.
    apply Z.ltb_ge in Hfield. lia.
Qed.

(** X9. [init] does not validate its mode: every mode other than
    [MODE_OUTPUT], [MODE_INPUT_PULLUP] and [MODE_INPUT_PULLDOWN], an unknown
    number included, is handled exactly like [MODE_INPUT_NOPULL]: the pin
    becomes an input and the pull state 0 is latched. *)
Theorem init_unknown_mode_is_nopull (s : state GPIO.t) (pin mode : Z) :
  mode <> GPIO.MODE_OUTPUT ->
  mode <> GPIO.MODE_INPUT_PULLUP ->
  mode <> GPIO.MODE_INPUT_PULLDOWN ->
  GPIO.init pin mode s = GPIO.init pin GPIO.MODE_INPUT_NOPULL s.
Proof.
  intros Hout Hup Hdown.
  apply Z.eqb_neq in Hout, Hup, Hdown.
  unfold GPIO.init, GPIO._pullupdn, bind, get_self, read_int, write_int, emit.
  cbn [self trace]. rewrite Hout, Hup, Hdown. reflexivity.
Qed.

(** X10. For a pin number in [0, 2 ^ 53) (the range in which the
    source's [int(pin / 10)] is the exact quotient) and whatever the mode,
    the first two register accesses of [init] are a load of the pin's function-select register and a store of a word
    in which the 3-bit field of every other pin of that register reads as
    it was loaded: configuring one pin does not reconfigure its nine
    neighbours. *)
Theorem init_keeps_other_fields (s : state GPIO.t) (pin mode : Z) :
  0 <= pin < 2 ^ 53 ->
  let g := GPIO._mem (self s) in
  let fsel := 4 * int_div pin 10 + GPIO_FSEL_OFFSET in
  let v := respond (trace s) g fsel in
  exists v' rest,
    GPIO.init pin mode s =
      Ok tt (mkState (self s)
               (trace s ++ ev_read_int g fsel v :: ev_write_int g fsel v' :: rest)) /\
    forall other,
      other mod 10 <> pin mod 10 ->
      Z.land v' (Z.shiftl 7 ((other mod 10) * 3)) =
        Z.land v (Z.shiftl 7 ((other mod 10) * 3)).
Proof.
  intros _ g fsel v.
  assert (Hkeep : forall x other,
            other mod 10 <> pin mod 10 ->
            (x = 0 \/ x = Z.shiftl 1 ((pin mod 10) * 3)) ->
            Z.land (Z.lor (Z.land v (Z.lnot (Z.shiftl 7 ((pin mod 10) * 3)))) x)
                   (Z.shiftl 7 ((other mod 10) * 3)) =
            Z.land v (Z.shiftl 7 ((other mod 10) * 3))).
  { intros x other Hother Hx.
    pose proof (Z.mod_pos_bound pin 10) as Hp.
    pose proof (Z.mod_pos_bound other 10) as Hq.
    apply Z.bits_inj'. intros n Hn. rewrite !Z.land_spec, Z.lor_spec.
    destruct (Z.testbit (Z.shiftl 7 (other mod 10 * 3)) n) eqn:Hbit;
      [|now rewrite !andb_false_r].
    destruct (fields_disjoint (pin mod 10) (other mod 10) n) as [Hf H1];
      try lia; try assumption.
    rewrite land_lnot_keeps by assumption.
    assert (Hxn : Z.testbit x n = false)
      by (destruct Hx as [->| ->]; [apply Z.bits_0|exact H1]).
    rewrite Hxn, orb_false_r. reflexivity. }
  unfold GPIO.init, GPIO._pullupdn, bind, get_self, read_int, write_int, emit.
  cbn [self trace]. fold g fsel v.
  destruct (mode =? GPIO.MODE_OUTPUT).
  - eexists _, []. split.
    + cbn [self trace]. rewrite <- app_assoc. reflexivity.
    + intros other Hother. apply Hkeep; [exact Hother|now right].
  - eexists (Z.lor (Z.land v (Z.lnot (Z.shiftl 7 ((pin mod 10) * 3)))) 0), _. split.
    + cbn [self trace]. rewrite <- !app_assoc. cbn [app]. rewrite Z.lor_0_r. reflexivity.
    + intros other Hother. apply Hkeep; [exact Hother|now left].
Qed.

End GpioInit.

Lemma init_unknown_mode_is_nopull_witness :
  GPIO.init (K := bcm283x) (D := quiet_device) 21 0 (mkState (GPIO.__init__ (K := bcm283x)) [])
  = GPIO.init (K := bcm283x) (D := quiet_device) 21 GPIO.MODE_INPUT_NOPULL
      (mkState (GPIO.__init__ (K := bcm283x)) []).
Proof.
  apply (init_unknown_mode_is_nopull (K := bcm283x) (D := quiet_device)); discriminate.
Defined.

(** ** DMAGPIO.is_active *)

Section IsActive.

Context `{K : rpgpio_private} `{D : device}.

(** X11. [is_active] returns after one load of the status register of
    DMA channel 5 and no store, with the engine untouched. It answers true
    exactly when every bit of [DMA_CS_ACTIVE] is set in the word loaded;
    when [DMA_CS_ACTIVE] is the single bit [i], that is bit [i] of the
    word, whatever the other bits are. *)
Theorem is_active_reads_active_bit (s : state DMAGPIO.t) :
  let o := self s in
  let addr := 0x100 * DMAGPIO._DMA_CHANNEL in
  let cs := respond (trace s) (DMAGPIO._dma o) addr in
  exists b,
    DMAGPIO.is_active s =
      Ok b (mkState o (trace s ++ [ev_read_int (DMAGPIO._dma o) addr cs])) /\
    (b = true <-> Z.land cs DMA_CS_ACTIVE = DMA_CS_ACTIVE) /\
    (forall i, 0 <= i -> DMA_CS_ACTIVE = Z.shiftl 1 i -> b = Z.testbit cs i).
Proof.
  intros o addr cs.
  exists (Z.land cs DMA_CS_ACTIVE =? DMA_CS_ACTIVE). split; [|split].
  - unfold DMAGPIO.is_active, bind, get_self, read_int, ret. cbn [self trace].
    fold o addr. fold cs.
    destruct (Z.land cs DMA_CS_ACTIVE =? DMA_CS_ACTIVE); reflexivity.
  - apply Z.eqb_eq.
  - intros i Hi ->. rewrite land_single_bit by exact Hi.
    destruct (Z.testbit cs i).
    + apply Z.eqb_refl.
    + apply Z.eqb_neq. intros H0. symmetry in H0. now apply shiftl_1_nonzero in H0.
Qed.

End IsActive.

(** * The HTTP command front-end *)

Section ServerProperties.

Variables gcode machine : Type.
Variable parse_line : string -> gcode + Server.raised.
Variable do_command :
  gcode -> machine -> (option string + Server.raised) * machine.
Variable parse_qs : string -> gmap string (list string).

Lemma handle_cases (e : Server.raised) (w : Server.world machine) :
  (exists str, Server.caught e = Some str /\
     Server.handle e w =
       (inl Server.PyFalse, Server.send (Server.out_print ("ERROR " ++ str)) w)) \/
  (Server.caught e = None /\ Server.handle e w = (inr e, w)).
Proof.
  unfold Server.handle. destruct (Server.caught e) as [str|].
  - left. exists str. split; reflexivity.
  - right. split; reflexivity.
Qed.

(** X12. What [do_line] can do with a line. It never returns [True]. It
    returns [False] exactly when parsing or executing the command raised a
    [GCodeException] or a [GMachineException], having printed the line
    ["ERROR " + str(e)] and nothing else. If the command was executed it
    prints nothing and returns ["OK"] when the machine answered [None] and
    ["OK " + res] when it answered the string [res]. An exception of any
    other class is not caught and nothing is printed. *)
Theorem do_line_outcomes (line : string) (w : Server.world machine) :
  let r := Server.do_line parse_line do_command line w in
  let failure e :=
    parse_line line = inr e \/
    exists g, parse_line line = inl g /\
              fst (do_command g (Server.the_machine w)) = inr e in
  match fst r with
  | inl Server.PyTrue => False
  | inl Server.PyFalse =>
      exists e str, failure e /\ Server.caught e = Some str /\
        Server.outputs (snd r) =
          Server.outputs w ++ [Server.out_print ("ERROR " ++ str)]
  | inl (Server.PyStr s) =>
      Server.outputs (snd r) = Server.outputs w /\
      exists g, parse_line line = inl g /\
        ((fst (do_command g (Server.the_machine w)) = inl None /\ s = "OK"%string) \/
         (exists res, fst (do_command g (Server.the_machine w)) = inl (Some res) /\
                      s = ("OK " ++ res)%string))
  | inr e => failure e /\ Server.caught e = None /\
             Server.outputs (snd r) = Server.outputs w
  end /\
  (forall e str, failure e -> Server.caught e = Some str -> fst r = inl Server.PyFalse).
Proof.
  intros r failure. split; cycle 1.
  { intros e str Hfail Hcaught. unfold r, Server.do_line, Server.handle.
    destruct Hfail as [->|(g & -> & Hdo)].
    - now rewrite Hcaught.
    - destruct (do_command g (Server.the_machine w)) as [res m']. cbn in Hdo. subst res.
      now rewrite Hcaught. }
  unfold r, Server.do_line.
  destruct (parse_line line) as [g|e] eqn:Hparse.
  - destruct (do_command g (Server.the_machine w)) as [[[res|]|e] m'] eqn:Hdo.
    + cbn. split; [reflexivity|]. exists g. split; [reflexivity|]. right.
      exists res. rewrite Hdo. split; reflexivity.
    + cbn. split; [reflexivity|]. exists g. split; [reflexivity|]. left.
      rewrite Hdo. split; reflexivity.
    + assert (Hfail : failure e)
        by (right; exists g; split; [reflexivity|now rewrite Hdo]).
      destruct (handle_cases e (Server.mkWorld m' (Server.outputs w)))
        as [(str & Hc & ->)|[Hc ->]]; cbn.
      * exists e, str. repeat split; assumption.
      * repeat split; assumption.
  - assert (Hfail : failure e) by (now left).
    destruct (handle_cases e w) as [(str & Hc & ->)|[Hc ->]]; cbn.
    + exists e, str. repeat split; assumption.
    + repeat split; assumption.
Qed.

(** X13. What a GET request does. Without a ["com"] parameter in the
    query, [do_GET] raises [KeyError] before anything is sent. When
    [do_line] returns a string, status 200, the end of the headers and that
    string as the body are sent, in this order. When [do_line] returns
    [False] (the command was rejected), status 200 and the end of the
    headers are sent and then [bytes(False, "utf-8")] raises [TypeError]:
    no body is written. *)
Theorem do_GET_outcomes (path : string) (w : Server.world machine) :
  let get := Server.do_GET parse_line do_command parse_qs path w in
  (parse_qs path !! "com"%string = None ->
     get = (inr (Server.KeyError "com"), w)) /\
  (forall command rest s w1,
     parse_qs path !! "com"%string = Some (command :: rest) ->
     Server.do_line parse_line do_command command w = (inl (Server.PyStr s), w1) ->
     fst get = inl tt /\
     Server.outputs (snd get) =
       Server.outputs w1 ++
       [Server.out_send_response 200; Server.out_end_headers; Server.out_wfile_write s]) /\
  (forall command rest w1,
     parse_qs path !! "com"%string = Some (command :: rest) ->
     Server.do_line parse_line do_command command w = (inl Server.PyFalse, w1) ->
     fst get = inr (Server.TypeError "encoding without a string argument") /\
     Server.outputs (snd get) =
       Server.outputs w1 ++ [Server.out_send_response 200; Server.out_end_headers]).
Proof.
  intros get. unfold get, Server.do_GET. split; [|split].
  - intros ->. reflexivity.
  - intros command rest s w1 -> ->. cbn. split; [reflexivity|].
    rewrite <- !app_assoc. reflexivity.
  - intros command rest w1 -> ->. cbn. split; [reflexivity|].
    rewrite <- !app_assoc. reflexivity.
Qed.

End ServerProperties.

Lemma do_GET_outcomes_witness :
  let parse_line (l : string) : unit + Server.raised :=
    if String.eqb l "G28" then inl tt else inr (Server.GCodeException "unknown command") in
  let do_command (_ : unit) (m : nat) : (option string + Server.raised) * nat :=
    (inl None, S m) in
  let parse_qs (p : string) : gmap string (list string) :=
    if String.eqb p "/?com=G28" then {[ "com"%string := ["G28"%string] ]}
    else if String.eqb p "/?com=XX" then {[ "com"%string := ["XX"%string] ]}
    else ∅ in
  let w := Server.mkWorld 0%nat [] in
  Server.do_GET parse_line do_command parse_qs "/" w = (inr (Server.KeyError "com"), w) /\
  Server.outputs (snd (Server.do_GET parse_line do_command parse_qs "/?com=G28" w)) =
    [Server.out_send_response 200; Server.out_end_headers; Server.out_wfile_write "OK"] /\
  fst (Server.do_GET parse_line do_command parse_qs "/?com=XX" w) =
    inr (Server.TypeError "encoding without a string argument") /\
  Server.outputs (snd (Server.do_GET parse_line do_command parse_qs "/?com=XX" w)) =
    [Server.out_print "ERROR unknown command";
     Server.out_send_response 200; Server.out_end_headers].
Proof.
  intros parse_line do_command parse_qs w.
  destruct (do_GET_outcomes unit nat parse_line do_command parse_qs "/" w) as (Hkey & _ & _).
  destruct (do_GET_outcomes unit nat parse_line do_command parse_qs "/?com=G28" w)
    as (_ & Hok & _).
  destruct (do_GET_outcomes unit nat parse_line do_command parse_qs "/?com=XX" w)
    as (_ & _ & Hfail).
  split; [apply Hkey; reflexivity|].
  destruct (Hok "G28"%string [] "OK"%string (Server.mkWorld 1%nat []))
    as [_ Hout]; [reflexivity|reflexivity|].
  destruct (Hfail "XX"%string []
              (Server.mkWorld 0%nat [Server.out_print "ERROR unknown command"]))
    as [Hraise Hout']; [reflexivity|reflexivity|].
  split; [exact Hout|]. split; [exact Hraise|exact Hout'].
Defined.

(** * Concrete instances of the pin and status properties *)

Lemma init_output_sets_field_witness :
  GPIO.init (K := bcm283x) (D := quiet_device) 21 GPIO.MODE_OUTPUT
    (mkState (GPIO.__init__ (K := bcm283x)) []) =
  Ok tt (mkState (GPIO.__init__ (K := bcm283x))
           [ev_read_int {| phys_address := 0x3F200000 |} 8 0;
            ev_write_int {| phys_address := 0x3F200000 |} 8 8]) /\
  Z.testbit 8 6 = Z.testbit 0 6.
Proof.
  destruct (init_output_sets_field (K := bcm283x) (D := quiet_device)
              (mkState (GPIO.__init__ (K := bcm283x)) []) 21 ltac:(lia))
    as (Hrun & _ & Hkeep).
  split; [exact Hrun|]. apply (Hkeep 6); [lia|reflexivity].
Defined.

Lemma init_keeps_other_fields_witness :
  exists v' rest,
    GPIO.init (K := bcm283x) (D := quiet_device) 21 GPIO.MODE_INPUT_PULLUP
      (mkState (GPIO.__init__ (K := bcm283x)) []) =
    Ok tt (mkState (GPIO.__init__ (K := bcm283x))
             (ev_read_int {| phys_address := 0x3F200000 |} 8 0 ::
              ev_write_int {| phys_address := 0x3F200000 |} 8 v' :: rest)) /\
    Z.land v' (Z.shiftl 7 ((22 mod 10) * 3)) = 0.
Proof.
  destruct (init_keeps_other_fields (K := bcm283x) (D := quiet_device)
              (mkState (GPIO.__init__ (K := bcm283x)) []) 21 GPIO.MODE_INPUT_PULLUP
              ltac:(lia))
    as (v' & rest & Hrun & Hkeep).
  exists v', rest. split; [exact Hrun|].
  rewrite (Hkeep 22); [reflexivity|]. vm_compute. discriminate.
Defined.

Lemma is_active_reads_active_bit_witness :
  exists b,
    DMAGPIO.is_active (K := bcm283x) (D := quiet_device) (mkState (small_engine 32) []) =
      Ok b (mkState (small_engine 32) [ev_read_int {| phys_address := 0x3F007000 |} 1280 0]) /\
    b = Z.testbit 0 0.
Proof.
  destruct (is_active_reads_active_bit (K := bcm283x) (D := quiet_device)
              (mkState (small_engine 32) [])) as (b & Hrun & _ & Hbit).
  exists b. split; [exact Hrun|]. apply (Hbit 0); [lia|reflexivity].
Defined.

(** * Running a chain again *)

Lemma closed_chain_reclose (m : gmap Z Z) (bus n v v' : Z) :
  1 <= n -> closed_chain m bus n v ->
  closed_chain (<[32 * n + 20 - 32 := v']> m) bus n v'.
Proof.
  intros Hn Hclosed k Hk.
  destruct (Hclosed k Hk) as (b & Hb & Hnext).
  replace (32 * n + 20 - 32) with (32 * (n - 1) + 20) by lia.
  destruct (Z.eqb_spec k (n - 1)) as [->|Hne].
  - rewrite (block_at_insert_next _ _ v' _ Hb). eexists. split; reflexivity.
  - rewrite block_at_insert_outside by lia. exists b. now split.
Qed.

Section RunAgain.

Context `{K : rpgpio_private} `{D : device}.

(** X14. [run] can be repeated on the same chain, and the last call
    decides how the chain ends: on a chain of [n >= 1] blocks closed by any
    earlier [finalize_stream] or [run] (last next field [v]), [run] with
    [loop] true leaves it looped to block 0 and [run] with [loop] false
    leaves it ended by 0, every other link kept and the cursor where it
    was, however the hardware programming ends. *)
Theorem run_again_recloses_chain (fuel : nat) (loop : bool) (s : state DMAGPIO.t)
    (n v : Z) :
  let o := self s in
  let bus := get_bus_address (DMAGPIO._physmem o) in
  1 <= n ->
  DMAGPIO.__current_address o = 32 * n ->
  closed_chain (cells (DMAGPIO._physmem o)) bus n v ->
  let s' := state_of (DMAGPIO.run fuel loop s) in
  closed_chain (cells (DMAGPIO._physmem (self s'))) bus n (if loop then bus else 0) /\
  DMAGPIO.__current_address (self s') = 32 * n /\
  raises (DMAGPIO.run fuel loop s) = None.
Proof.
  intros o bus Hn Hcur Hclosed s'.
  assert (Hne : DMAGPIO.__current_address (self s) <> 0) by (fold o; lia).
  split; [|split].
  - unfold s'. destruct loop.
    + rewrite run_loop by exact Hne.
      match goal with |- context [DMAGPIO.run_stream fuel ?s1] =>
        destruct (register_only_run_stream fuel s1) as [-> _] end.
      cbn. fold o. rewrite Hcur. now apply closed_chain_reclose with (v := v).
    + rewrite run_once by exact Hne. unfold bind. rewrite finalize_stream_eq.
      match goal with |- context [DMAGPIO.run_stream fuel ?s1] =>
        destruct (register_only_run_stream fuel s1) as [-> _] end.
      cbn. fold o. rewrite Hcur. now apply closed_chain_reclose with (v := v).
  - unfold s'. destruct (run_keeps_cursor fuel loop s) as (-> & _). exact Hcur.
  - now apply run_never_raises_nonempty.
Qed.

End RunAgain.

Lemma run_again_recloses_chain_witness :
  let s := state_of (DMAGPIO.run (K := bcm283x) (D := quiet_device) 1 false
             (state_of (DMAGPIO.add_delay 50 (mkState (small_engine 0) [])))) in
  closed_chain
    (cells (DMAGPIO._physmem
       (self (state_of (DMAGPIO.run (K := bcm283x) (D := quiet_device) 1 true s)))))
    0xC0000000 1 0xC0000000.
Proof.
  intros s.
  destruct (run_again_recloses_chain (K := bcm283x) (D := quiet_device) 1 true s 1 0)
    as (Hclosed & _).
  - lia.
  - reflexivity.
  - intros k Hk. assert (k = 0) as -> by lia.
    vm_compute. eexists. split; reflexivity.
  - exact Hclosed.
Defined.

Lemma do_line_outcomes_witness :
  let parse_line (l : string) : unit + Server.raised :=
    inr (Server.GCodeException "unknown command") in
  let do_command (_ : unit) (m : nat) : (option string + Server.raised) * nat :=
    (inl None, m) in
  fst (Server.do_line parse_line do_command "XX" (Server.mkWorld 0%nat [])) =
    inl Server.PyFalse.
Proof.
  intros parse_line do_command.
  destruct (do_line_outcomes unit nat parse_line do_command "XX" (Server.mkWorld 0%nat []))
    as [_ Hfalse].
  apply (Hfalse (Server.GCodeException "unknown command") "unknown command"%string).
  - left. reflexivity.
  - reflexivity.
Defined.
